(** * binwalk: the magic-file parser and candidate scanner (binwalk/parser.py)

    A shallow embedding of class [MagicParser]: the signature-line parser
    [_parse_line], the integer encoder [_to_string], the catalog built by
    [parse_file] and [parse], the pattern compiler [build_signature_set] and
    the scanner [find_signature_candidates].

    Python 2 byte strings are [string]s of 8-bit characters, Python integers
    are [Z], lengths and positions inside a string are [nat].  An exception
    is a value of [exn] carried by [outcome]; the attributes of [self] that
    the methods touch are the fields of the record [MagicParser]. *)

From Stdlib Require Import ZArith Ascii String.
From stdpp Require Import base gmap sets list strings sorting.

(** ** Python built-ins used by the parser *)

Module Py.

Definition ord (c : ascii) : Z := Z.of_N (N_of_ascii c).
Definition chr (n : Z) : ascii := ascii_of_N (Z.to_N n).
Definition len (s : string) : nat := String.length s.

(** [sub in s] *)
Fixpoint contains (sub s : string) : bool :=
  match s with
  | EmptyString => String.prefix sub s
  | String _ rest => String.prefix sub s || contains sub rest
  end.

(** [s.startswith(p)] *)
Definition startswith (s p : string) : bool := String.prefix p s.

(** [s.replace(old, new)]: every non-overlapping occurrence, leftmost
    first.  [skip] counts the characters of an occurrence already replaced. *)
Fixpoint replace_go (old new : string) (skip : nat) (s : string) : string :=
  match s with
  | EmptyString => if String.eqb old "" then new else ""
  | String c rest =>
      match skip with
      | S k => replace_go old new k rest
      | O =>
          if String.eqb old "" then new +:+ String c (replace_go old new 0 rest)
          else if String.prefix old s
               then new +:+ replace_go old new (String.length old - 1) rest
               else String c (replace_go old new 0 rest)
      end
  end.
Definition replace (s old new : string) : string := replace_go old new 0 s.

(** The white space of [str.split()] on a byte string. *)
Definition isspace (c : ascii) : bool :=
  bool_decide (ord c ∈ [32; 9; 10; 11; 12; 13]%Z).

(** [s.split()]: the maximal runs of non-space characters, in order. *)
Fixpoint split_go (tok : string) (s : string) : list string :=
  match s with
  | EmptyString => if String.eqb tok "" then [] else [tok]
  | String c rest =>
      if isspace c
      then (if String.eqb tok "" then [] else [tok]) ++ split_go "" rest
      else split_go (tok +:+ String c "") rest
  end.
Definition split (s : string) : list string := split_go "" s.

(** [sep.join(parts)] *)
Fixpoint join (sep : string) (parts : list string) : string :=
  match parts with
  | [] => ""
  | [p] => p
  | p :: ps => p +:+ sep +:+ join sep ps
  end.

(** [s.strip(chars)]: drop the characters of [chars] from both ends. *)
Fixpoint in_chars (c : ascii) (chars : string) : bool :=
  match chars with
  | EmptyString => false
  | String d rest => Ascii.eqb c d || in_chars c rest
  end.
Fixpoint lstrip (chars s : string) : string :=
  match s with
  | EmptyString => ""
  | String c rest => if in_chars c chars then lstrip chars rest else s
  end.
Fixpoint rstrip (chars s : string) : string :=
  match s with
  | EmptyString => ""
  | String c rest =>
      let r := rstrip chars rest in
      if String.eqb r "" && in_chars c chars then "" else String c r
  end.
Definition strip (s chars : string) : string := rstrip chars (lstrip chars s).

(** [s[::-1]] *)
Definition reversed (s : string) : string := String.rev s.

(** [s[i]] as an option, for statements about single bytes. *)
Definition byte_at (s : string) (i : nat) : option ascii := String.get i s.

End Py.

(** ** Exceptions *)

Inductive exn : Type :=
  | IndexError
  | ValueError (text : string)
  | IOError (file_name : string)
  | AttributeError (attribute : string)
  (* [Exception("%s :: %s", (str(e), line))] of [_parse_line] *)
  | LineError (cause : exn) (line : string)
  (* [Exception("Failed to evaluate condition for ...")] of [_parse_line] *)
  | ConditionError (description type condition : string) (cause : exn)
  (* [Exception("Error parsing magic file '%s' on line %d: %s")] of [parse_file] *)
  | MagicFileError (file_name : string) (line_count : Z) (cause : exn).

Inductive outcome (A : Type) : Type :=
  | Return (a : A)
  | Raise (e : exn).
Arguments Return {A} a.
Arguments Raise {A} e.

Global Instance outcome_ret : MRet outcome := @Return.
Global Instance outcome_bind : MBind outcome := λ A B k m,
  match m with
  | Return a => k a
  | Raise e => Raise e
  end.

(** [try: m  except Exception as e: h e] *)
Definition try_except {A} (m : outcome A) (h : exn → outcome A) : outcome A :=
  match m with
  | Return a => Return a
  | Raise e => h e
  end.

(** [l[i]], raising [IndexError] out of range. *)
Definition getitem {A} (l : list A) (i : nat) : outcome A :=
  match l !! i with
  | Some a => Return a
  | None => Raise IndexError
  end.

(** ** Class constants *)

Definition BIG_ENDIAN : string := "big".
Definition LITTLE_ENDIAN : string := "little".
Definition WILDCARD : string := "x".

(** ** [_to_string]: the integer encoder *)

(** The loop [for i in range(0, size): data += chr((value >> (8*i)) & 0xFF)],
    started at index [i] with [n] iterations left. *)
Fixpoint to_string_loop (value : Z) (i n : nat) (data : string) : string :=
  match n with
  | O => data
  | S n' =>
      to_string_loop value (S i) n'
        (data +:+ String (Py.chr (Z.land (Z.shiftr value (8 * Z.of_nat i)) 255)) "")
  end.

Definition _to_string (value : Z) (size : nat) (endianess : string) : string :=
  let data := to_string_loop value 0 size "" in
  if negb (String.eqb endianess LITTLE_ENDIAN) then Py.reversed data else data.


(** ** Collaborators that live outside parser.py

    [str2int] (binwalk.common), [string_decode] (binwalk.compat) and the
    [MagicFilter] instance handed to the constructor are not part of this
    file; the parser is embedded over any implementation of them.  A call
    that raises is [None]. *)

Class Collaborators := {
  (** [str2int(text)]: the integer a numeral denotes. *)
  str2int : string → option Z;
  (** [string_decode(text)]: the text with its backslash escapes decoded. *)
  string_decode : string → option string;
  (** [self.filter.filter(description) == self.filter.FILTER_INCLUDE] *)
  filter_include : string → bool
}.

(** Modelled from the spec: [bytes2str] of binwalk.compat, which is not in
    this file; lines and buffers are byte sequences and their text form has
    one character per byte. *)
Definition bytes2str (bs : string) : string := bs.

(** ** Signature entries: the dictionary [_parse_line] returns *)

Module Entry.
Record t : Type := Build {
  offset : Z;
  type : string;
  condition : string;
  description : string;
  length : nat
}.
End Entry.

Section parse_line.
Context `{Collaborators}.

Definition call_str2int (text : string) : outcome Z :=
  match str2int text with
  | Some n => Return n
  | None => Raise (ValueError text)
  end.

Definition call_string_decode (text : string) : outcome string :=
  match string_decode text with
  | Some s => Return s
  | None => Raise (ValueError text)
  end.

(** [bytes2str(line[:1]) < '0' or bytes2str(line[:1]) > '9'] *)
Definition not_digit_led (line : string) : bool :=
  match bytes2str line with
  | EmptyString => true
  | String c _ => bool_decide (Py.ord c < 48)%Z || bool_decide (57 < Py.ord c)%Z
  end.

(** [bytes2str(line).replace('\\ ', '\\x20').split()] *)
Definition line_parts (line : string) : list string :=
  Py.split (Py.replace (bytes2str line) "\ " "\x20").

(** The [if]/[elif] chain that derives the field length from the type. *)
Definition type_length (type : string) : nat :=
  if String.eqb type "byte" then 1
  else if Py.contains "short" type then 2
  else if Py.contains "long" type then 4
  else if Py.contains "quad" type then 8
  else 0.

Definition _parse_line (line : string) : outcome (option Entry.t) :=
  if not_digit_led line then Return None
  else
    '(offset, type, condition, description) ←
      try_except
        (let parts := line_parts line in
         offset ← getitem parts 0;
         type ← getitem parts 1;
         token ← getitem parts 2;
         condition ← call_string_decode token;
         Return (offset, type, condition, Py.join " " (drop 3 parts)))
        (λ e, Raise (LineError e line));
    offset ← try_except (call_str2int offset) (λ e, Raise (LineError e line));
    if Py.contains "string" type || String.eqb condition WILDCARD
    then
      Return (Some (Entry.Build offset type condition description
                      (Py.len condition)))
    else
      let endianess :=
        if Py.startswith type "be" then BIG_ENDIAN else LITTLE_ENDIAN in
      intval ←
        try_except (call_str2int (Py.strip condition "L"))
          (λ e, Raise (ConditionError description type condition e));
      let length := type_length type in
      Return (Some (Entry.Build offset type
                      (_to_string intval length endianess) description
                      length)).

End parse_line.

(** ** Compiled patterns

    [build_signature_set] compiles only two shapes of regular expression:
    [re.compile('.')] and [re.compile(re.escape(sig))].  A compiled pattern
    is identified by its pattern text, which is how [re] hands back the same
    object for a pattern compiled twice. *)

Inductive matcher : Type :=
  | Dot                       (* re.compile('.') *)
  | Literal (sig : string).   (* re.compile(re.escape(sig)) *)

Global Instance matcher_eq_dec : EqDecision matcher.
Proof. solve_decision. Defined.

Global Instance matcher_countable : Countable matcher :=
  inj_countable'
    (λ m, match m with Dot => None | Literal sig => Some sig end)
    (λ o, match o with None => Dot | Some sig => Literal sig end)
    (λ m, match m with Dot => eq_refl | Literal _ => eq_refl end).

(** ['.'] without [re.DOTALL] matches any character except a newline. *)
Definition dot_matches (c : ascii) : bool := negb (Ascii.eqb c "010").

(** [[match.start() for match in regex.finditer(data)]]: the scan resumes at
    the end of the previous match, so matches never overlap; an empty match
    is found at every position, the end of the data included.  [pos] is the
    position of the head of [data], [skip] the number of characters still
    covered by the previous match. *)
Fixpoint finditer_go (regex : matcher) (skip : nat) (pos : Z) (data : string)
  : list Z :=
  match data with
  | EmptyString =>
      match regex with
      | Literal EmptyString => [pos]
      | _ => []
      end
  | String c rest =>
      match skip with
      | S k => finditer_go regex k (pos + 1) rest
      | O =>
          match regex with
          | Dot =>
              if dot_matches c then pos :: finditer_go regex 0 (pos + 1) rest
              else finditer_go regex 0 (pos + 1) rest
          | Literal sig =>
              if String.prefix sig data
              then pos :: finditer_go regex (String.length sig - 1) (pos + 1) rest
              else finditer_go regex 0 (pos + 1) rest
          end
      end
  end.

Definition finditer (regex : matcher) (data : string) : list Z :=
  finditer_go regex 0 0 data.

(** ** The parser object *)

(** [tempfile.NamedTemporaryFile()]: a name, the bytes written so far and the
    file position. *)
Record tempfile : Type := Tempfile {
  name : string;
  content : string;
  position : nat
}.

Fixpoint str_take (n : nat) (s : string) : string :=
  match n, s with
  | S n', String c rest => String c (str_take n' rest)
  | _, _ => ""
  end.
Fixpoint str_drop (n : nat) (s : string) : string :=
  match n, s with
  | S n', String _ rest => str_drop n' rest
  | _, _ => s
  end.

(** [fd.write(data)]: overwrite from the file position on, extending the file. *)
Definition write (fd : tempfile) (data : string) : tempfile :=
  Tempfile (name fd)
    (str_take (position fd) (content fd) +:+ data
       +:+ str_drop (position fd + String.length data) (content fd))
    (position fd + String.length data).

(** [fd.seek(0)] *)
Definition seek0 (fd : tempfile) : tempfile := Tempfile (name fd) (content fd) 0.

(** The attributes of a [MagicParser] that the methods below read or write,
    and the standard output the warnings go to.  [signature_set] is [None]
    until [build_signature_set] first assigns it: the constructor does not. *)
Record MagicParser : Type := Parser {
  signatures : gmap Z (list string);
  signature_set : option (gset matcher);
  signature_count : Z;
  fd : tempfile;
  stdout : list string
}.

(** [__init__] *)
Definition init (fd_name : string) : MagicParser :=
  Parser ∅ None 0 (Tempfile fd_name "" 0) [].

(** ** [build_signature_set]: the pattern compiler *)

(** The body of the inner loop: one condition to one compiled pattern. *)
Definition compile_sig (sig : string) : matcher :=
  if String.eqb sig WILDCARD then Dot else Literal sig.

(** The list [signature_set] before it is made a set; [iterator] of
    binwalk.compat walks the items of the dictionary. *)
Definition compiled_list (sigs : gmap Z (list string)) : list matcher :=
  '(_, conds) ← map_to_list sigs; compile_sig <$> conds.

Definition build_signature_set (self : MagicParser) : gset matcher * MagicParser :=
  let signature_set : gset matcher := list_to_set (compiled_list (signatures self)) in
  (signature_set,
   Parser (signatures self) (Some signature_set) (signature_count self)
     (fd self) (stdout self)).

(** ** [find_signature_candidates]: the scanner *)

(** The accumulation loop, then [list(set(...))] and [sort()]. *)
Definition candidates (signature_set : gset matcher) (data : string) (end_ : Z)
  : list Z :=
  let candidate_offsets : list Z :=
    regex ← elements signature_set;
    filter (λ start, (start < end_)%Z) (finditer regex data) in
  merge_sort Z.le (elements (list_to_set candidate_offsets : gset Z)).

Definition find_signature_candidates (self : MagicParser) (data : string)
    (end_ : Z) : outcome (list Z) :=
  match signature_set self with
  | None => Raise (AttributeError "signature_set")
  | Some signature_set => Return (candidates signature_set (bytes2str data) end_)
  end.

(** ** [parse_file] and [parse]: the signature catalog *)

(** The file system: the lines [io.FileIO(file_name).readlines()] returns for
    each file that exists. *)
Abbreviation filesystem := (gmap string (list string)).

Section catalog.
Context `{Collaborators}.

(** The body of the [FILTER_INCLUDE] branch: count the entry, create the
    list of its offset if there is none, and append the condition unless
    the list has it. *)
Definition include_entry (entry : Entry.t) (self : MagicParser) : MagicParser :=
  let offset := Entry.offset entry in
  let sigs :=
    if bool_decide (is_Some (signatures self !! offset)) then signatures self
    else <[offset := []]> (signatures self) in
  let conds := default [] (sigs !! offset) in
  let sigs :=
    if bool_decide (Entry.condition entry ∈ conds) then sigs
    else <[offset := conds ++ [Entry.condition entry]]> sigs in
  Parser sigs (signature_set self) (signature_count self + 1)
    (fd self) (stdout self).

Definition fd_write (self : MagicParser) (line : string) : MagicParser :=
  Parser (signatures self) (signature_set self) (signature_count self)
    (write (fd self) line) (stdout self).

(** The [for line in ...] loop with its locals [include] and [line_count].
    It stops at the first exception and hands back the parser as the
    exception left it, with the line count the handler prints. *)
Fixpoint parse_file_loop (lines : list string) (include : bool)
    (line_count : Z) (self : MagicParser) : MagicParser * Z * option exn :=
  match lines with
  | [] => (self, line_count, None)
  | line :: rest =>
      let line_count := (line_count + 1)%Z in
      match _parse_line line with
      | Raise e => (self, line_count, Some e)
      | Return entry =>
          let '(include, self) :=
            match entry with
            | Some entry =>
                if filter_include (Entry.description entry)
                then (true, include_entry entry self)
                else (false, self)
            | None => (include, self)
            end in
          let self := if include then fd_write self line else self in
          parse_file_loop rest include line_count self
      end
  end.

Definition parse_file (fs : filesystem) (file_name : string)
    (self : MagicParser) : outcome unit * MagicParser :=
  match fs !! file_name with
  | None => (Raise (MagicFileError file_name 0 (IOError file_name)), self)
  | Some lines =>
      match parse_file_loop lines false 0 self with
      | (self, line_count, Some e) =>
          (Raise (MagicFileError file_name line_count e), self)
      | (self, _, None) => (Return (), (build_signature_set self).2)
      end
  end.

(** [os.path.exists(fname)] *)
Definition exists_ (fs : filesystem) (fname : string) : bool :=
  bool_decide (is_Some (fs !! fname)).

(** [sys.stdout.write("WARNING: Magic file '%s' does not exist!\n" % fname)];
    [sys] reaches the module through [from binwalk.compat import *]. *)
Definition warning (fname : string) : string :=
  "WARNING: Magic file '" +:+ fname +:+ "' does not exist!" +:+ String "010" "".
Definition warn (self : MagicParser) (fname : string) : MagicParser :=
  Parser (signatures self) (signature_set self) (signature_count self)
    (fd self) (stdout self ++ [warning fname]).

(** The [for fname in files] loop; an exception of [parse_file] is not
    caught and ends it. *)
Fixpoint parse_files (fs : filesystem) (files : list string)
    (self : MagicParser) : outcome unit * MagicParser :=
  match files with
  | [] => (Return (), self)
  | fname :: rest =>
      if exists_ fs fname then
        match parse_file fs fname self with
        | (Return _, self) => parse_files fs rest self
        | (Raise e, self) => (Raise e, self)
        end
      else parse_files fs rest (warn self fname)
  end.

(** The argument of [parse]: one file name or a list of them. *)
Inductive file_arg : Type :=
  | OneFile (file_name : string)
  | FileList (files : list string).

Definition parse (fs : filesystem) (file_name : file_arg)
    (self : MagicParser) : outcome string * MagicParser :=
  let files :=
    match file_name with
    | FileList files => files
    | OneFile file_name => [file_name]
    end in
  match parse_files fs files self with
  | (Return _, self) =>
      let self :=
        Parser (signatures self) (signature_set self) (signature_count self)
          (seek0 (fd self)) (stdout self) in
      (Return (name (fd self)), self)
  | (Raise e, self) => (Raise e, self)
  end.

End catalog.

(** ** A concrete set of collaborators, for examples *)

(** The value of one digit in the given base. *)
Definition digit_value (base : Z) (c : ascii) : option Z :=
  let n := Py.ord c in
  let v :=
    if bool_decide (48 ≤ n ≤ 57)%Z then Some (n - 48)%Z
    else if bool_decide (97 ≤ n ≤ 102)%Z then Some (n - 87)%Z
    else if bool_decide (65 ≤ n ≤ 70)%Z then Some (n - 55)%Z
    else None in
  d ← v; if bool_decide (d < base)%Z then Some d else None.

Fixpoint digits_value (base acc : Z) (s : string) : option Z :=
  match s with
  | EmptyString => Some acc
  | String c rest => d ← digit_value base c; digits_value base (acc * base + d) rest
  end.

(** Modelled from the spec: [str2int] of binwalk.common, which is not in this
    file.  The text is parsed as an integer numeral literal in decimal, hex
    ([0x] prefix) or octal (leading [0]) form; anything else is an error. *)
Definition str2int_spec (text : string) : option Z :=
  match text with
  | EmptyString => None
  | String "0" (String "x" EmptyString) | String "0" (String "X" EmptyString) => None
  | String "0" (String "x" rest) | String "0" (String "X" rest) =>
      digits_value 16 0 rest
  | String "0" rest => digits_value 8 0 rest
  | _ => digits_value 10 0 text
  end.

(** Modelled from the spec: [string_decode] of binwalk.compat, which is not
    in this file.  Backslash escape sequences are decoded into raw bytes:
    [\xHH] into the byte with that code, [\\], [\n], [\r], [\t] and [\0] into
    the byte they name; a [\x] without two hex digits is an error and any
    other text is kept as it is. *)
Fixpoint string_decode_spec (text : string) : option string :=
  match text with
  | EmptyString => Some ""
  | String "\" (String "x" (String h (String l rest))) =>
      hi ← digit_value 16 h; lo ← digit_value 16 l;
      r ← string_decode_spec rest; Some (String (Py.chr (16 * hi + lo)) r)
  | String "\" (String "x" _) => None
  | String "\" (String "\" rest) => String "\" <$> string_decode_spec rest
  | String "\" (String "n" rest) => String "010" <$> string_decode_spec rest
  | String "\" (String "r" rest) => String "013" <$> string_decode_spec rest
  | String "\" (String "t" rest) => String "009" <$> string_decode_spec rest
  | String "\" (String "0" rest) => String "000" <$> string_decode_spec rest
  | String c rest => String c <$> string_decode_spec rest
  end.

(** The modelled helpers with a filter that includes every description
    except ["Noise"]. *)
Definition example_collaborators : Collaborators :=
  {| str2int := str2int_spec;
     string_decode := string_decode_spec;
     filter_include := λ description, negb (String.eqb description "Noise") |}.

(** ** Vocabulary of the statements *)

(** [sig] occurs in [data] at position [start]. *)
Definition occurs_at (sig data : string) (start : Z) : Prop :=
  (0 ≤ start)%Z ∧ String.prefix sig (str_drop (Z.to_nat start) data) = true.

(** Every match of [regex], in any data, is an occurrence of [sig]. *)
Definition matches_only (regex : matcher) (sig : string) : Prop :=
  ∀ data start, start ∈ finditer regex data → occurs_at sig data start.

(** The raw conditions of a catalog, over all its offsets. *)
Definition all_conditions (sigs : gmap Z (list string)) : list string :=
  '(_, conds) ← map_to_list sigs; conds.



(** The compiled set is the one [build_signature_set] derives from the
    catalog as it is now. *)
Definition up_to_date (self : MagicParser) : Prop :=
  signature_set self = Some (build_signature_set self).1.

Section vocabulary.
Context `{Collaborators}.

(** The line takes the numeric branch of [_parse_line] with the decoded
    condition [condition]: three tokens, a type without "string" and a
    condition other than the wildcard. *)
Definition numeric_line (line type condition : string) : Prop :=
  ∃ token,
    line_parts line !! 1 = Some type ∧
    line_parts line !! 2 = Some token ∧
    string_decode token = Some condition ∧
    Py.contains "string" type || String.eqb condition WILDCARD = false.

(** A digit-led line that is malformed: fewer than three tokens, an offset
    that is not an integer literal, or a numeric condition that is not one. *)
Definition malformed (line : string) : Prop :=
  not_digit_led line = false ∧
  (length (line_parts line) < 3 ∨
   (∃ offset, line_parts line !! 0 = Some offset ∧ str2int offset = None) ∨
   (∃ type condition,
      numeric_line line type condition ∧
      str2int (Py.strip condition "L") = None)).
End vocabulary.

(** ** [split]: the results of libmagic *)

Definition RESULT_SEPERATOR : string := "\012- ".

(** [data.split(sep)] for a non-empty [sep]: the pieces between the
    non-overlapping occurrences of [sep], leftmost first.  [cur] is the piece
    being read, [skip] the number of characters of an occurrence still to
    pass. *)
Fixpoint split_sep_go (sep : string) (skip : nat) (cur : string) (s : string)
  : list string :=
  match s with
  | EmptyString => [cur]
  | String c rest =>
      match skip with
      | S k => split_sep_go sep k cur rest
      | O =>
          if String.prefix sep s
          then cur :: split_sep_go sep (String.length sep - 1) "" rest
          else split_sep_go sep 0 (cur +:+ String c "") rest
      end
  end.
Definition split_sep (s sep : string) : list string := split_sep_go sep 0 "" s.

(** [MagicParser.split]; the [except] branch, which returns the empty list,
    is taken only for [data] that is not a string. *)
Definition split (data : string) : list string :=
  split_sep data RESULT_SEPERATOR.

(** ** [file_from_string]: a magic file for one raw string *)

From Stdlib Require DecimalString.

(** ["%d" % n] *)
Definition format_d (n : Z) : string :=
  DecimalString.NilZero.string_of_int (Z.to_int n).

(** [MAGIC_STRING_FORMAT % (offset, signature_string, display_name)], the
    format being ["%d\tstring\t%s\t%s\n"]. *)
Definition MAGIC_STRING_FORMAT (offset : Z)
    (signature_string display_name : string) : string :=
  format_d offset +:+ String "009" "string" +:+ String "009" signature_string
    +:+ String "009" display_name +:+ String "010" "".

Definition DEFAULT_DISPLAY_NAME : string := "Raw string signature".

(** [file_from_string]: a fresh temporary file, named [raw_name] by the
    system, gets the one formatted line and is rewound; the method returns
    its name and keeps the file in [self.raw_fd], returned here beside it. *)
Definition file_from_string (raw_name signature_string : string) (offset : Z)
    (display_name : string) : string * tempfile :=
  let raw_fd := Tempfile raw_name "" 0 in
  let raw_fd :=
    write raw_fd (MAGIC_STRING_FORMAT offset signature_string display_name) in
  let raw_fd := seek0 raw_fd in
  (name raw_fd, raw_fd).

(** [io.FileIO(file_name).readlines()] on a file with these bytes: the lines
    with their newline, and a last line without one if the file does not end
    in a newline. *)
Fixpoint readlines_go (cur : string) (s : string) : list string :=
  match s with
  | EmptyString => if String.eqb cur "" then [] else [cur]
  | String c rest =>
      if Ascii.eqb c "010"
      then (cur +:+ String c "") :: readlines_go "" rest
      else readlines_go (cur +:+ String c "") rest
  end.
Definition readlines (bytes : string) : list string := readlines_go "" bytes.

(** ** Further vocabulary *)

(** The number of bytes a match of [regex] covers. *)
Definition match_length (regex : matcher) : nat :=
  match regex with
  | Dot => 1
  | Literal sig => String.length sig
  end.

(** The integer a little-endian byte string spells: the first byte is the
    least significant. *)
Fixpoint int_of_bytes_le (data : string) : Z :=
  match data with
  | EmptyString => 0
  | String c rest => Py.ord c + 256 * int_of_bytes_le rest
  end.

(** The catalog with [condition] recorded at [offset]: what the
    [FILTER_INCLUDE] branch of [parse_file] does to [self.signatures]. *)
Definition catalog_add (offset : Z) (condition : string)
    (sigs : gmap Z (list string)) : gmap Z (list string) :=
  <[offset :=
      let conds := default [] (sigs !! offset) in
      if bool_decide (condition ∈ conds) then conds
      else conds ++ [condition]]> sigs.

(** The catalog after the entries of a list have been recorded in order. *)
Definition catalog_fold (sigs : gmap Z (list string))
    (entries : list Entry.t) : gmap Z (list string) :=
  foldl (λ sigs entry,
           catalog_add (Entry.offset entry) (Entry.condition entry) sigs)
    sigs entries.

(** The catalog lists [sig] at [offset]. *)
Definition in_catalog (sigs : gmap Z (list string)) (offset : Z)
    (sig : string) : Prop :=
  ∃ conds, sigs !! offset = Some conds ∧ sig ∈ conds.

Section more_vocabulary.
Context `{Collaborators}.

(** The entry a line contributes to the catalog: the line starts a
    signature, parses, and the filter includes its description. *)
Definition included (line : string) : option Entry.t :=
  match _parse_line line with
  | Return (Some entry) =>
      if filter_include (Entry.description entry) then Some entry else None
  | _ => None
  end.

End more_vocabulary.

(** The bytes of a list of lines, one after the other. *)
Fixpoint concat_lines (lines : list string) : string :=
  match lines with
  | [] => ""
  | line :: rest => line +:+ concat_lines rest
  end.

(** The file position lies inside the file or at its end. *)
Definition position_ok (fd : tempfile) : Prop :=
  position fd ≤ String.length (content fd).

(** Every character of the string passes the test. *)
Fixpoint all_chars (test : ascii → bool) (s : string) : bool :=
  match s with
  | EmptyString => true
  | String c rest => test c && all_chars test rest
  end.

(** The character is a decimal digit. *)
Definition is_digit (c : ascii) : bool :=
  bool_decide (48 ≤ Py.ord c ≤ 57)%Z.

(** The character is not white space, as [str.split()] sees it. *)
Definition not_space (c : ascii) : bool := negb (Py.isspace c).

(** The modelled helpers with a filter that includes every description. *)
Definition include_all_collaborators : Collaborators :=
  {| str2int := str2int_spec;
     string_decode := string_decode_spec;
     filter_include := λ _, true |}.

(** * Properties *)

(** ** Strings *)

Section string_facts.

Lemma app_cons (c : ascii) (s t : string) :
  String c s +:+ t = String c (s +:+ t).
Proof. done. Qed.

Lemma length_app (s t : string) :
  String.length (s +:+ t) = String.length s + String.length t.
Proof. induction s as [|c s IH]; [done|]. rewrite app_cons. simpl. by rewrite IH. Qed.

Lemma app_empty_r (s : string) : s +:+ "" = s.
Proof. induction s as [|c s IH]; [done|]. by rewrite app_cons, IH. Qed.

Lemma app_assoc (s t u : string) : (s +:+ t) +:+ u = s +:+ t +:+ u.
Proof. induction s as [|c s IH]; [done|]. by rewrite !app_cons, IH. Qed.

Lemma get_app_l (s t : string) (i : nat) :
  i < String.length s → String.get i (s +:+ t) = String.get i s.
Proof.
  revert i. induction s as [|c s IH]; intros i Hi; simpl in Hi; [lia|].
  rewrite app_cons. destruct i as [|i]; [done|]. simpl. apply IH. lia.
Qed.

Lemma get_app_r (s t : string) (i : nat) :
  String.get (String.length s + i) (s +:+ t) = String.get i t.
Proof. induction s as [|c s IH]; [done|]. rewrite app_cons. simpl. apply IH. Qed.

Lemma get_ge (s : string) (i : nat) :
  String.length s ≤ i → String.get i s = None.
Proof.
  revert i. induction s as [|c s IH]; intros i Hi; simpl in *; [done|].
  destruct i as [|i]; [lia|]. apply IH. lia.
Qed.

Lemma rev_app_eq (s acc : string) :
  String.rev_app s acc = String.rev s +:+ acc.
Proof.
  unfold String.rev. revert acc.
  induction s as [|c s IH]; intros acc; simpl; [done|].
  rewrite (IH (String c "")), IH, app_assoc. done.
Qed.

Lemma rev_cons (c : ascii) (s : string) :
  String.rev (String c s) = String.rev s +:+ String c "".
Proof. unfold String.rev at 1. simpl. apply rev_app_eq. Qed.

Lemma length_rev (s : string) : String.length (String.rev s) = String.length s.
Proof.
  induction s as [|c s IH]; [done|].
  rewrite rev_cons, length_app, IH. simpl. lia.
Qed.

(** Reading a reversed string: position [i] holds what position
    [length - 1 - i] held. *)
Lemma get_rev (s : string) (i : nat) :
  i < String.length s →
  String.get i (String.rev s) = String.get (String.length s - 1 - i) s.
Proof.
  revert i. induction s as [|c s IH]; intros i Hi; simpl in *; [lia|].
  rewrite rev_cons.
  destruct (decide (i < String.length s)) as [Hlt|Hge].
  - rewrite get_app_l by (by rewrite length_rev).
    rewrite IH by done.
    replace (String.length s - 0 - i) with (S (String.length s - 1 - i)) by lia.
    done.
  - assert (i = String.length s) as -> by lia.
    rewrite <- (length_rev s) at 1.
    rewrite <- (Nat.add_0_r (String.length (String.rev s))), get_app_r.
    by replace (String.length s - 0 - String.length s) with 0 by lia.
Qed.

Lemma ord_chr (n : Z) : (0 ≤ n < 256)%Z → Py.ord (Py.chr n) = n.
Proof.
  intros Hn. unfold Py.ord, Py.chr.
  rewrite N_ascii_embedding by lia. lia.
Qed.

Lemma land_255_range (v : Z) : (0 ≤ Z.land v 255 < 256)%Z.
Proof.
  change 255%Z with (Z.ones 8). rewrite Z.land_ones by lia.
  apply Z.mod_pos_bound. lia.
Qed.

End string_facts.

(** ** The encoder *)

Section encoder.

(** The byte the loop appends at step [i]. *)
Local Abbreviation byte_of value i :=
  (Z.land (Z.shiftr value (8 * Z.of_nat i)) 255).

Lemma to_string_loop_app (value : Z) (i n : nat) (data : string) :
  to_string_loop value i n data = data +:+ to_string_loop value i n "".
Proof.
  revert i data. induction n as [|n IH]; intros i data; simpl.
  - by rewrite app_empty_r.
  - change ("" +:+ ?s) with s.
    rewrite (IH _ (data +:+ _)), (IH _ (String _ "")), app_assoc. done.
Qed.

Lemma to_string_loop_length (value : Z) (i n : nat) (data : string) :
  String.length (to_string_loop value i n data) = String.length data + n.
Proof.
  revert i data. induction n as [|n IH]; intros i data; simpl; [lia|].
  rewrite IH, length_app. simpl. lia.
Qed.

Lemma to_string_loop_get (value : Z) (i n k : nat) :
  k < n →
  String.get k (to_string_loop value i n "")
  = Some (Py.chr (byte_of value (i + k))).
Proof.
  revert i k. induction n as [|n IH]; intros i k Hk; [lia|].
  simpl. change ("" +:+ ?s) with s. rewrite to_string_loop_app, app_cons.
  destruct k as [|k]; simpl.
  - by rewrite Nat.add_0_r.
  - change ("" +:+ ?s) with s. rewrite IH by lia. do 4 f_equal. lia.
Qed.

Lemma to_string_little (value : Z) (size : nat) :
  _to_string value size LITTLE_ENDIAN = to_string_loop value 0 size "".
Proof. done. Qed.

Lemma to_string_big (value : Z) (size : nat) :
  _to_string value size BIG_ENDIAN
  = Py.reversed (_to_string value size LITTLE_ENDIAN).
Proof. done. Qed.

Lemma to_string_length (value : Z) (size : nat) (endianess : string) :
  String.length (_to_string value size endianess) = size.
Proof.
  unfold _to_string, Py.reversed.
  destruct (negb _); rewrite ?length_rev, to_string_loop_length; done.
Qed.

(** C4: for every integer, size and endianness [_to_string] returns
    exactly [size] bytes; little-endian byte [i] is
    [(value >> (8*i)) & 0xFF], the big-endian string is the little-endian
    one reversed, so its byte [i] is little-endian byte [size-1-i]; and
    [0x1234] in four big-endian bytes is [00 00 12 34]. *)
Theorem to_string_bytes (value : Z) (size : nat) :
  (∀ endianess, Py.len (_to_string value size endianess) = size) ∧
  (∀ i, Py.ord <$> Py.byte_at (_to_string value size LITTLE_ENDIAN) i
        = if decide (i < size) then Some (byte_of value i) else None) ∧
  _to_string value size BIG_ENDIAN
    = Py.reversed (_to_string value size LITTLE_ENDIAN) ∧
  (∀ i, Py.ord <$> Py.byte_at (_to_string value size BIG_ENDIAN) i
        = if decide (i < size) then Some (byte_of value (size - 1 - i))
          else None) ∧
  _to_string 0x1234 4 BIG_ENDIAN
    = String "000" (String "000" (String "018" (String "052" ""))).
Proof.
  split_and!.
  - intros e. apply to_string_length.
  - intros i. unfold Py.byte_at. rewrite to_string_little.
    case_decide as Hi.
    + rewrite to_string_loop_get by done. simpl.
      f_equal. apply ord_chr, land_255_range.
    + rewrite get_ge; [done|]. rewrite to_string_loop_length. simpl. lia.
  - apply to_string_big.
  - intros i. unfold Py.byte_at.
    rewrite to_string_big, to_string_little. unfold Py.reversed.
    case_decide as Hi.
    + rewrite get_rev by (rewrite to_string_loop_length; simpl; lia).
      rewrite to_string_loop_length. simpl.
      rewrite to_string_loop_get by lia. simpl.
      f_equal. apply ord_chr, land_255_range.
    + rewrite get_ge; [done|].
      rewrite length_rev, to_string_loop_length. simpl. lia.
  - done.
Qed.

End encoder.

(** ** The line parser *)

Section parse_line_facts.
Context `{Collaborators}.

(** What a successful parse of a signature line went through. *)
Lemma parse_line_Some (line : string) (entry : Entry.t) :
  _parse_line line = Return (Some entry) →
  ∃ offset_tok type token condition offset,
    not_digit_led line = false ∧
    line_parts line !! 0 = Some offset_tok ∧
    line_parts line !! 1 = Some type ∧
    line_parts line !! 2 = Some token ∧
    string_decode token = Some condition ∧
    str2int offset_tok = Some offset ∧
    let description := Py.join " " (drop 3 (line_parts line)) in
    if Py.contains "string" type || String.eqb condition WILDCARD
    then entry = Entry.Build offset type condition description
                   (Py.len condition)
    else ∃ intval,
      str2int (Py.strip condition "L") = Some intval ∧
      entry = Entry.Build offset type
                (_to_string intval (type_length type)
                   (if Py.startswith type "be" then BIG_ENDIAN
                    else LITTLE_ENDIAN))
                description (type_length type).
Proof.
  unfold _parse_line, getitem, call_string_decode, call_str2int.
  destruct (not_digit_led line); [done|].
  destruct (line_parts line !! 0) as [offset_tok|]; [|done].
  destruct (line_parts line !! 1) as [type|]; [|done].
  destruct (line_parts line !! 2) as [token|]; [|done].
  simpl. destruct (string_decode token) as [condition|] eqn:Hdec; [|done].
  simpl. destruct (str2int offset_tok) as [offset|] eqn:Hoff; [|done].
  simpl. intros Hparse.
  exists offset_tok, type, token, condition, offset.
  split_and!; try done. simpl.
  destruct (Py.contains "string" type || String.eqb condition WILDCARD).
  - by simplify_eq.
  - destruct (str2int (Py.strip condition "L")) as [intval|]; [|done].
    simpl in Hparse. exists intval. by simplify_eq.
Qed.

(** A line that does not start with a digit is not parsed at all. *)
Lemma parse_line_not_digit (line : string) :
  not_digit_led line = true → _parse_line line = Return None.
Proof. unfold _parse_line. by intros ->. Qed.

Lemma parse_line_digit (line : string) (r : option Entry.t) :
  not_digit_led line = false → _parse_line line = Return r → is_Some r.
Proof.
  unfold _parse_line, getitem, call_string_decode, call_str2int.
  intros ->.
  destruct (line_parts line !! 0) as [offset_tok|]; [|done].
  destruct (line_parts line !! 1) as [type|]; [|done].
  destruct (line_parts line !! 2) as [token|]; [|done].
  simpl. destruct (string_decode token) as [condition|]; [|done].
  simpl. destruct (str2int offset_tok) as [offset|]; [|done].
  simpl. destruct (_ || _); [intros; simplify_eq; eauto|].
  destruct (str2int (Py.strip condition "L")); [|done].
  simpl. intros; simplify_eq; eauto.
Qed.

(** C3: a line that starts with a decimal digit and parses yields an
    entry whose length field is the byte length of its condition, be the
    condition decoded text, the wildcard or an encoded integer. *)
Theorem parse_line_length (line : string) (r : option Entry.t) :
  not_digit_led line = false →
  _parse_line line = Return r →
  ∃ entry, r = Some entry ∧
    Entry.length entry = Py.len (Entry.condition entry).
Proof.
  intros Hdigit Hparse.
  destruct (parse_line_digit _ _ Hdigit Hparse) as [entry ->].
  exists entry. split; [done|].
  apply parse_line_Some in Hparse
    as (offset_tok & type & token & condition & offset & _ & _ & _ & _ & _ & _ & Hentry).
  simpl in Hentry.
  destruct (Py.contains "string" type || String.eqb condition WILDCARD).
  - by subst entry.
  - destruct Hentry as (intval & _ & ->). simpl.
    unfold Py.len. by rewrite to_string_length.
Qed.

Lemma type_length_unknown (type : string) :
  type ≠ "byte" →
  Py.contains "short" type = false →
  Py.contains "long" type = false →
  Py.contains "quad" type = false →
  type_length type = 0.
Proof.
  intros Hbyte Hshort Hlong Hquad. unfold type_length.
  rewrite Hshort, Hlong, Hquad.
  by destruct (String.eqb_spec type "byte").
Qed.

(** C7: a numeric entry whose type is not "byte" and contains none of
    "short", "long", "quad" has length 0 and the empty condition, which is
    what the encoder returns for size 0. *)
Theorem parse_line_unknown_type (line : string) (entry : Entry.t)
    (condition : string) :
  _parse_line line = Return (Some entry) →
  numeric_line line (Entry.type entry) condition →
  Entry.type entry ≠ "byte" →
  Py.contains "short" (Entry.type entry) = false →
  Py.contains "long" (Entry.type entry) = false →
  Py.contains "quad" (Entry.type entry) = false →
  Entry.length entry = 0 ∧ Entry.condition entry = "" ∧
  ∃ intval endianess,
    str2int (Py.strip condition "L") = Some intval ∧
    Entry.condition entry = _to_string intval 0 endianess.
Proof.
  intros Hparse (token & Hty & Htok & Hdec & Hnum) Hbyte Hshort Hlong Hquad.
  apply parse_line_Some in Hparse
    as (offset_tok & type & token' & condition' & offset & _ & _ & Hty' & Htok' & Hdec' & _ & Hentry).
  simpl in Hentry.
  assert (type = Entry.type entry) as ->.
  { destruct (_ || _); [by subst entry|].
    by destruct Hentry as (? & _ & ->). }
  simplify_eq. rewrite Hnum in Hentry.
  destruct Hentry as (intval & Hint & Hentry).
  rewrite (type_length_unknown _ Hbyte Hshort Hlong Hquad) in Hentry.
  rewrite Hentry. simpl. split_and!; [done| |].
  - by destruct (Py.startswith _ _).
  - eauto.
Qed.

End parse_line_facts.

Lemma parse_line_length_witness :
  ∃ entry,
    Some (Entry.Build 0 "belong" (String "000" (String "000" (String "018" (String "052" ""))))
            "BE value" 4) = Some entry ∧
    Entry.length entry = Py.len (Entry.condition entry).
Proof.
  apply (@parse_line_length example_collaborators "0 belong 0x1234 BE value");
    reflexivity.
Defined.

Lemma parse_line_unknown_type_witness :
  let entry := Entry.Build 7 "foo" "" "odd type" 0 in
  Entry.length entry = 0 ∧ Entry.condition entry = "" ∧
  ∃ intval endianess,
    str2int_spec (Py.strip "12L" "L") = Some intval ∧
    Entry.condition entry = _to_string intval 0 endianess.
Proof.
  apply (@parse_line_unknown_type example_collaborators "7 foo 12L odd type"
           (Entry.Build 7 "foo" "" "odd type" 0) "12L");
    [reflexivity | by exists "12L" | done..].
Defined.

(** ** Compiled patterns and their matches *)

Section matcher_facts.

Lemma compile_sig_Dot (sig : string) : compile_sig sig = Dot ↔ sig = WILDCARD.
Proof.
  unfold compile_sig. destruct (String.eqb_spec sig WILDCARD); naive_solver.
Qed.

Lemma compile_sig_Literal (sig : string) :
  sig ≠ WILDCARD → compile_sig sig = Literal sig.
Proof.
  unfold compile_sig. by destruct (String.eqb_spec sig WILDCARD).
Qed.

Global Instance compile_sig_inj : Inj (=) (=) compile_sig.
Proof.
  intros s t. unfold compile_sig.
  destruct (String.eqb_spec s WILDCARD), (String.eqb_spec t WILDCARD);
    naive_solver.
Qed.

Lemma finditer_go_cons (regex : matcher) (skip : nat) (pos : Z) (c : ascii)
    (rest : string) :
  finditer_go regex skip pos (String c rest) =
  match skip with
  | S k => finditer_go regex k (pos + 1) rest
  | O =>
      match regex with
      | Dot =>
          if dot_matches c then pos :: finditer_go regex 0 (pos + 1) rest
          else finditer_go regex 0 (pos + 1) rest
      | Literal sig =>
          if String.prefix sig (String c rest)
          then pos :: finditer_go regex (String.length sig - 1) (pos + 1) rest
          else finditer_go regex 0 (pos + 1) rest
      end
  end.
Proof. done. Qed.

(** Matches start inside the data, or at its end for an empty match. *)
Lemma finditer_go_range (regex : matcher) (skip : nat) (pos : Z)
    (data : string) (p : Z) :
  p ∈ finditer_go regex skip pos data →
  (pos ≤ p ≤ pos + Z.of_nat (String.length data))%Z.
Proof.
  revert skip pos.
  induction data as [|c rest IH]; intros skip pos Hp.
  - simpl in Hp. destruct regex as [|[|]]; try by apply elem_of_nil in Hp.
    apply list_elem_of_singleton in Hp as ->. simpl. lia.
  - assert (∀ k, p ∈ finditer_go regex k (pos + 1) rest →
              (pos ≤ p ≤ pos + Z.of_nat (String.length (String c rest)))%Z)
      as Hrest.
    { intros k Hk%IH. simpl String.length. lia. }
    rewrite finditer_go_cons in Hp. destruct skip as [|k]; [|by eapply Hrest].
    destruct regex as [|sig].
    + destruct (dot_matches c); [|by eapply Hrest].
      apply elem_of_cons in Hp as [->|Hp]; [|by eapply Hrest].
      simpl String.length. lia.
    + destruct (String.prefix sig (String c rest)); [|by eapply Hrest].
      apply elem_of_cons in Hp as [->|Hp]; [|by eapply Hrest].
      simpl String.length. lia.
Qed.

Lemma finditer_nonneg (regex : matcher) (data : string) (p : Z) :
  p ∈ finditer regex data → (0 ≤ p)%Z.
Proof. intros Hp%finditer_go_range. lia. Qed.

(** Every match of a compiled literal is an occurrence of the literal. *)
Lemma finditer_go_literal (sig : string) (skip : nat) (pos : Z)
    (data : string) (p : Z) :
  p ∈ finditer_go (Literal sig) skip pos data →
  String.prefix sig (str_drop (Z.to_nat (p - pos)) data) = true.
Proof.
  revert skip pos.
  induction data as [|c rest IH]; intros skip pos Hp.
  - simpl in Hp. destruct sig; [|by apply elem_of_nil in Hp].
    by destruct (Z.to_nat (p - pos)).
  - assert (∀ k, p ∈ finditer_go (Literal sig) k (pos + 1) rest →
              String.prefix sig (str_drop (Z.to_nat (p - pos)) (String c rest))
              = true) as Hrest.
    { intros k Hk. pose proof (finditer_go_range _ _ _ _ _ Hk) as Hrange.
      apply IH in Hk.
      replace (Z.to_nat (p - pos)) with (S (Z.to_nat (p - (pos + 1)))) by lia.
      done. }
    rewrite finditer_go_cons in Hp. destruct skip as [|k]; [|by eapply Hrest].
    destruct (String.prefix sig (String c rest)) eqn:Hpre; [|by eapply Hrest].
    apply elem_of_cons in Hp as [->|Hp]; [|by eapply Hrest].
    by rewrite Z.sub_diag.
Qed.

Lemma literal_matches_only (sig : string) : matches_only (Literal sig) sig.
Proof.
  intros data start Hstart. split; [by eapply finditer_nonneg|].
  apply finditer_go_literal in Hstart. by rewrite Z.sub_0_r in Hstart.
Qed.

(** ['.'] matches at exactly the positions that hold a byte other than a
    newline. *)
Lemma finditer_go_dot (pos : Z) (data : string) (p : Z) :
  p ∈ finditer_go Dot 0 pos data ↔
  ∃ (i : nat) (c : ascii),
    p = (pos + Z.of_nat i)%Z ∧ String.get i data = Some c ∧
    dot_matches c = true.
Proof.
  revert pos. induction data as [|c rest IH]; intros pos; simpl.
  - split; [by intros ?%elem_of_nil | by intros (i & d & _ & ? & _)].
  - assert (p ∈ finditer_go Dot 0 (pos + 1) rest ↔
            ∃ (i : nat) (d : ascii),
              p = (pos + Z.of_nat (S i))%Z ∧ String.get i rest = Some d ∧
              dot_matches d = true) as Hrest.
    { rewrite IH.
      split; intros (i & d & -> & ? & ?); exists i, d; split_and!; try done; lia. }
    destruct (dot_matches c) eqn:Hc; [rewrite elem_of_cons|]; rewrite Hrest.
    + split.
      * intros [->|(i & d & ? & ? & ?)]; [exists 0, c | exists (S i), d];
          split_and!; try done; lia.
      * intros ([|i] & d & -> & Hd & ?); [left; lia|right; eauto].
    + split.
      * intros (i & d & ? & ? & ?). by exists (S i), d.
      * intros ([|i] & d & -> & Hd & ?); simpl in Hd; simplify_eq; [congruence|eauto].
Qed.

Lemma finditer_dot (data : string) (p : Z) :
  p ∈ finditer Dot data ↔
  ∃ (i : nat) (c : ascii),
    p = Z.of_nat i ∧ String.get i data = Some c ∧ c ≠ "010"%char.
Proof.
  unfold finditer. rewrite finditer_go_dot. unfold dot_matches.
  split; intros (i & c & -> & ? & Hc); exists i, c; split_and!; try done.
  - intros ->. by rewrite Ascii.eqb_refl in Hc.
  - apply negb_true_iff. by apply Ascii.eqb_neq.
Qed.

End matcher_facts.

(** ** The wildcard sentinel *)

Section wildcard.
Context `{Collaborators}.

(** C1, as the code has it: the wildcard sentinel is the one-byte string
    [0x78], so a numeric entry whose encoded condition is that byte is the
    sentinel and compiles to the wildcard pattern.  A condition compiles to
    the wildcard pattern exactly when it is that one byte; any other
    condition compiles to a literal pattern, every match of which is an
    occurrence of the condition's own bytes. *)
Theorem wildcard_is_byte_0x78 (line : string) (entry : Entry.t)
    (condition : string) :
  _parse_line line = Return (Some entry) →
  numeric_line line (Entry.type entry) condition →
  Entry.condition entry = String (Py.chr 0x78) "" →
  WILDCARD = String (Py.chr 0x78) "" ∧
  compile_sig (Entry.condition entry) = Dot ∧
  (∀ sig, compile_sig sig = Dot ↔ sig = String (Py.chr 0x78) "") ∧
  (∀ sig, sig ≠ String (Py.chr 0x78) "" →
          compile_sig sig = Literal sig ∧ matches_only (compile_sig sig) sig).
Proof.
  intros _ _ Hcond. split_and!.
  - done.
  - by rewrite Hcond.
  - intros sig. apply compile_sig_Dot.
  - intros sig Hsig. rewrite compile_sig_Literal by done.
    split; [done|]. apply literal_matches_only.
Qed.

End wildcard.

Lemma wildcard_is_byte_0x78_witness :
  WILDCARD = String (Py.chr 0x78) "" ∧
  compile_sig (Entry.condition (Entry.Build 0 "byte" "x" "ex" 1)) = Dot ∧
  (∀ sig, compile_sig sig = Dot ↔ sig = String (Py.chr 0x78) "") ∧
  (∀ sig, sig ≠ String (Py.chr 0x78) "" →
          compile_sig sig = Literal sig ∧ matches_only (compile_sig sig) sig).
Proof.
  apply (@wildcard_is_byte_0x78 example_collaborators "0 byte 0x78 ex"
           (Entry.Build 0 "byte" "x" "ex" 1) "0x78");
    [reflexivity | by exists "0x78" | reflexivity].
Defined.

(** C1 as stated fails: the line [0 byte 0x78 ex] is a numeric entry, its
    encoded condition is the single byte [0x78], and the pattern compiled
    from it does not match only that byte: it matches the byte ["A"]. *)
Lemma numeric_byte_0x78_matches_any :
  ∃ entry,
    @_parse_line example_collaborators "0 byte 0x78 ex" = Return (Some entry) ∧
    @numeric_line example_collaborators "0 byte 0x78 ex" (Entry.type entry) "0x78" ∧
    Entry.condition entry = String (Py.chr 0x78) "" ∧
    finditer (compile_sig (Entry.condition entry)) "A" = [0%Z] ∧
    ¬ matches_only (compile_sig (Entry.condition entry)) (String (Py.chr 0x78) "").
Proof.
  exists (Entry.Build 0 "byte" "x" "ex" 1).
  split_and!; [reflexivity | by exists "0x78" | reflexivity | reflexivity |].
  intros Honly. destruct (Honly "A" 0%Z) as [_ Hpre]; [by apply elem_of_cons; left|].
  discriminate Hpre.
Qed.

(** ** The scanner *)

Section scanner.

Lemma elem_of_candidates (signature_set : gset matcher) (data : string)
    (end_ p : Z) :
  p ∈ candidates signature_set data end_ ↔
  (p < end_)%Z ∧ ∃ regex, regex ∈ signature_set ∧ p ∈ finditer regex data.
Proof.
  unfold candidates.
  rewrite merge_sort_Permutation, elem_of_elements, elem_of_list_to_set,
    list_elem_of_bind.
  split.
  - intros (regex & (Hlt & Hp)%list_elem_of_filter & Hregex%elem_of_elements).
    eauto.
  - intros (Hlt & regex & Hregex & Hp). exists regex.
    split; [by apply list_elem_of_filter | by apply elem_of_elements].
Qed.

Lemma NoDup_candidates (signature_set : gset matcher) (data : string)
    (end_ : Z) :
  NoDup (candidates signature_set data end_).
Proof.
  unfold candidates. rewrite merge_sort_Permutation. apply NoDup_elements.
Qed.

Lemma StronglySorted_le_lt (l : list Z) :
  StronglySorted Z.le l → NoDup l → StronglySorted Z.lt l.
Proof.
  induction 1 as [|x l Hsorted IH Hx]; intros Hnodup; [constructor|].
  apply NoDup_cons in Hnodup as [Hnotin Hnodup].
  constructor; [by apply IH|].
  apply Forall_forall. intros y Hy.
  rewrite Forall_forall in Hx. specialize (Hx y Hy).
  assert (x ≠ y) by (intros ->; done). lia.
Qed.

Lemma candidates_ascending (signature_set : gset matcher) (data : string)
    (end_ : Z) :
  StronglySorted Z.lt (candidates signature_set data end_).
Proof.
  apply StronglySorted_le_lt; [|apply NoDup_candidates].
  unfold candidates. apply (StronglySorted_merge_sort Z.le).
Qed.

(** C5: once the matcher set is built, [find_signature_candidates]
    returns, for every buffer and bound, a strictly ascending list without
    duplicates whose offsets are all below the bound: an offset is listed
    exactly when it is below the bound and some matcher matches there.  So
    a bound of 0 gives the empty list, a match at [end_ - 1] is listed and
    [end_] itself never is. *)
Theorem find_signature_candidates_sorted (self : MagicParser)
    (signature_set0 : gset matcher) (data : string) (end_ : Z) :
  signature_set self = Some signature_set0 →
  ∃ offsets,
    find_signature_candidates self data end_ = Return offsets ∧
    StronglySorted Z.lt offsets ∧
    NoDup offsets ∧
    Forall (λ p, 0 ≤ p < end_)%Z offsets ∧
    (∀ p, p ∈ offsets ↔
          (p < end_)%Z ∧
          ∃ regex, regex ∈ signature_set0 ∧ p ∈ finditer regex data) ∧
    (end_ = 0%Z → offsets = []) ∧
    (∀ regex, regex ∈ signature_set0 →
              (end_ - 1)%Z ∈ finditer regex data → (end_ - 1)%Z ∈ offsets) ∧
    end_ ∉ offsets.
Proof.
  intros Hset. unfold find_signature_candidates, bytes2str. rewrite Hset.
  eexists. split; [done|].
  split_and!.
  - apply candidates_ascending.
  - apply NoDup_candidates.
  - apply Forall_forall. intros p (? & regex & _ & ?%finditer_nonneg)%elem_of_candidates.
    lia.
  - intros p. apply elem_of_candidates.
  - intros ->. apply elem_of_nil_inv. intros p.
    intros (? & regex & _ & ?%finditer_nonneg)%elem_of_candidates. lia.
  - intros regex Hregex Hmatch. apply elem_of_candidates.
    split; [lia|eauto].
  - intros (? & _)%elem_of_candidates. lia.
Qed.

End scanner.

Lemma find_signature_candidates_sorted_witness :
  ∃ offsets,
    find_signature_candidates
      (Parser ∅ (Some {[Literal "AB"; Dot]}) 0 (Tempfile "tmp" "" 0) [])
      "xABAB" 4 = Return offsets ∧
    StronglySorted Z.lt offsets ∧
    NoDup offsets ∧
    Forall (λ p, 0 ≤ p < 4)%Z offsets ∧
    (∀ p, p ∈ offsets ↔
          (p < 4)%Z ∧
          ∃ regex, regex ∈ ({[Literal "AB"; Dot]} : gset matcher) ∧
                   p ∈ finditer regex "xABAB") ∧
    (4%Z = 0%Z → offsets = []) ∧
    (∀ regex, regex ∈ ({[Literal "AB"; Dot]} : gset matcher) →
              (4 - 1)%Z ∈ finditer regex "xABAB" → (4 - 1)%Z ∈ offsets) ∧
    4%Z ∉ offsets.
Proof.
  apply (find_signature_candidates_sorted
           (Parser ∅ (Some {[Literal "AB"; Dot]}) 0 (Tempfile "tmp" "" 0) [])
           {[Literal "AB"; Dot]} "xABAB" 4).
  reflexivity.
Defined.

(** C5 as stated fails: it does not hold for every parser.  [__init__]
    never assigns [signature_set], so on a parser that has loaded nothing
    the scanner raises [AttributeError] for every buffer and bound, and the
    bound 0 does not give the empty list.  The same holds after a [parse]
    that returned the handle but found none of the files it was given. *)
Lemma unbuilt_parser_scan_raises :
  let fresh := init "tmp" in
  let loaded :=
    @parse example_collaborators ∅ (FileList ["a.magic"; "b.magic"]) fresh in
  signature_set fresh = None ∧
  (∀ data end_,
     find_signature_candidates fresh data end_
     = Raise (AttributeError "signature_set")) ∧
  find_signature_candidates fresh "AB" 0 ≠ Return [] ∧
  loaded.1 = Return "tmp" ∧
  (∀ data end_,
     find_signature_candidates loaded.2 data end_
     = Raise (AttributeError "signature_set")) ∧
  find_signature_candidates loaded.2 "AB" 0 ≠ Return [].
Proof. by vm_compute. Qed.

(** ** The catalog and the compiled set *)

Section compiler_facts.

Lemma compiled_list_conditions (sigs : gmap Z (list string)) :
  compiled_list sigs = compile_sig <$> all_conditions sigs.
Proof.
  unfold compiled_list, all_conditions.
  induction (map_to_list sigs) as [|[offset conds] l IH]; [done|].
  rewrite !bind_cons, fmap_app. by f_equal.
Qed.

Lemma elem_of_all_conditions (sigs : gmap Z (list string)) (sig : string) :
  sig ∈ all_conditions sigs ↔
  ∃ offset conds, sigs !! offset = Some conds ∧ sig ∈ conds.
Proof.
  unfold all_conditions. rewrite list_elem_of_bind. split.
  - intros ([offset conds] & Hsig & Hconds%elem_of_map_to_list). eauto.
  - intros (offset & conds & Hconds & Hsig). exists (offset, conds).
    split; [done | by apply elem_of_map_to_list].
Qed.

Lemma size_list_to_set_fmap_inj `{Countable A, Countable B} (f : A → B)
    `{!Inj (=) (=) f} (l : list A) :
  size (list_to_set (f <$> l) : gset B) = size (list_to_set l : gset A).
Proof.
  rewrite (list_to_set_fmap_L (C:=gset A) (D:=gset B)).
  unfold set_map. rewrite size_list_to_set.
  - by rewrite length_fmap.
  - apply (NoDup_fmap_2 f), NoDup_elements.
Qed.

Lemma build_signature_set_fst (self : MagicParser) :
  (build_signature_set self).1 = list_to_set (compiled_list (signatures self)).
Proof. done. Qed.

Lemma build_signature_set_snd (self : MagicParser) :
  (build_signature_set self).2
  = Parser (signatures self) (Some (build_signature_set self).1)
      (signature_count self) (fd self) (stdout self).
Proof. done. Qed.

(** The compiled set holds the pattern of every condition of the catalog
    and nothing else. *)
Lemma elem_of_build_signature_set (self : MagicParser) (regex : matcher) :
  regex ∈ (build_signature_set self).1 ↔
  ∃ offset conds sig,
    signatures self !! offset = Some conds ∧ sig ∈ conds ∧
    regex = compile_sig sig.
Proof.
  rewrite build_signature_set_fst, elem_of_list_to_set,
    compiled_list_conditions, list_elem_of_fmap.
  setoid_rewrite elem_of_all_conditions. split.
  - intros (sig & -> & offset & conds & ? & ?). eauto 6.
  - intros (offset & conds & sig & ? & ? & ->). eauto 6.
Qed.

End compiler_facts.

Section catalog_facts.
Context `{Collaborators}.

(** What [include_entry] does to the catalog, in one insertion. *)
Lemma include_entry_signatures (entry : Entry.t) (self : MagicParser) :
  signatures (include_entry entry self)
  = <[Entry.offset entry :=
        let conds := default [] (signatures self !! Entry.offset entry) in
        if bool_decide (Entry.condition entry ∈ conds) then conds
        else conds ++ [Entry.condition entry]]> (signatures self).
Proof.
  unfold include_entry. simpl.
  destruct (signatures self !! Entry.offset entry) as [conds|] eqn:Hconds.
  - rewrite (bool_decide_eq_true_2 (is_Some _)) by (unfold is_Some; eauto). rewrite ?Hconds. simpl.
    case_bool_decide; [|done]. by rewrite insert_id.
  - rewrite (bool_decide_eq_false_2 (is_Some _)) by apply is_Some_None.
    rewrite lookup_insert_eq. simpl.
    by rewrite insert_insert_eq.
Qed.

(** Including a condition that the offset already has changes nothing in
    the catalog. *)
Lemma include_entry_again (entry1 entry2 : Entry.t) (self : MagicParser) :
  Entry.offset entry1 = Entry.offset entry2 →
  Entry.condition entry1 = Entry.condition entry2 →
  signatures (include_entry entry2 (include_entry entry1 self)) = signatures (include_entry entry1 self).
Proof.
  intros Hoff Hcond. rewrite (include_entry_signatures entry2), <- Hoff, <- Hcond.
  apply insert_id. rewrite include_entry_signatures, !lookup_insert_eq. simpl.
  f_equal. generalize (default [] (signatures self !! Entry.offset entry1)).
  intros conds.
  assert (Entry.condition entry1
          ∈ (if bool_decide (Entry.condition entry1 ∈ conds) then conds
             else conds ++ [Entry.condition entry1])) as Hin.
  { case_bool_decide; [done|].
    apply elem_of_app. right. by apply elem_of_cons; left. }
  by rewrite (bool_decide_eq_true_2 _ Hin).
Qed.

(** The lists of a catalog stay duplicate-free. *)
Lemma include_entry_NoDup (entry : Entry.t) (self : MagicParser) :
  map_Forall (λ _ conds, NoDup conds) (signatures self) →
  map_Forall (λ _ conds, NoDup conds) (signatures (include_entry entry self)).
Proof.
  intros Hnodup. rewrite include_entry_signatures. apply map_Forall_insert_2; [|done].
  simpl. destruct (signatures self !! Entry.offset entry) as [conds|] eqn:Hconds;
    simpl.
  - apply Hnodup in Hconds. case_bool_decide; [done|].
    apply NoDup_app. split_and!; [done| |apply NoDup_singleton].
    intros sig ? ->%list_elem_of_singleton. done.
  - apply NoDup_singleton.
Qed.

End catalog_facts.

Section dedup.
Context `{Collaborators}.

Lemma NoDup_count_one `{EqDecision A} (l : list A) (x : A) :
  NoDup l → x ∈ l → length (filter (λ y, y = x) l) = 1.
Proof.
  induction 1 as [|y l Hy Hnodup IH]; intros Hx; [by apply elem_of_nil in Hx|].
  apply elem_of_cons in Hx as [->|Hx].
  - rewrite filter_cons_True by done. simpl. f_equal.
    apply length_zero_iff_nil, elem_of_nil_inv.
    intros z [-> ?]%list_elem_of_filter. done.
  - rewrite filter_cons_False by (intros ->; done). by apply IH.
Qed.

(** A file of one line that parses to an included entry. *)
Lemma parse_file_single (fs : filesystem) (file_name line : string)
    (entry : Entry.t) (self : MagicParser) :
  fs !! file_name = Some [line] →
  _parse_line line = Return (Some entry) →
  filter_include (Entry.description entry) = true →
  parse_file fs file_name self
  = (Return (), (build_signature_set (fd_write (include_entry entry self) line)).2).
Proof.
  intros Hfile Hline Hfilter. unfold parse_file. rewrite Hfile. simpl.
  by rewrite Hline, Hfilter.
Qed.

(** C6: the compiled set has as many matchers as the catalog has distinct
    raw conditions, whatever the number of offsets, entries or files that
    produced them: each condition of the catalog has its pattern in the
    set exactly once, and including an entry whose offset already has its
    condition leaves the catalog as it is.  In particular two files that
    each declare offset 0 with condition "AB" leave ["AB"] once at offset 0
    and one literal matcher for it. *)
Theorem duplicate_conditions_collapse (fs : filesystem)
    (file1 file2 line1 line2 fd_name : string) (entry1 entry2 : Entry.t) :
  fs !! file1 = Some [line1] →
  fs !! file2 = Some [line2] →
  _parse_line line1 = Return (Some entry1) →
  _parse_line line2 = Return (Some entry2) →
  Entry.offset entry1 = 0%Z ∧ Entry.condition entry1 = "AB" →
  Entry.offset entry2 = 0%Z ∧ Entry.condition entry2 = "AB" →
  filter_include (Entry.description entry1) = true →
  filter_include (Entry.description entry2) = true →
  (∀ self,
     size (build_signature_set self).1
     = size (list_to_set (all_conditions (signatures self)) : gset string)) ∧
  (∀ self offset conds sig,
     signatures self !! offset = Some conds → sig ∈ conds →
     length (filter (λ regex, regex = compile_sig sig)
               (elements (build_signature_set self).1)) = 1) ∧
  (∀ entry entry' self,
     Entry.offset entry = Entry.offset entry' →
     Entry.condition entry = Entry.condition entry' →
     signatures (include_entry entry' (include_entry entry self))
     = signatures (include_entry entry self)) ∧
  let loaded := (parse fs (FileList [file1; file2]) (init fd_name)).2 in
  signatures loaded !! 0%Z = Some ["AB"] ∧
  signature_set loaded = Some {[Literal "AB"]} ∧
  elements ({[Literal "AB"]} : gset matcher) = [Literal "AB"].
Proof.
  intros Hfile1 Hfile2 Hline1 Hline2 [Hoff1 Hcond1] [Hoff2 Hcond2] Hinc1 Hinc2.
  split_and!.
  - intros self. rewrite build_signature_set_fst, compiled_list_conditions.
    apply (size_list_to_set_fmap_inj compile_sig).
  - intros self offset conds sig Hconds Hsig.
    apply NoDup_count_one; [apply NoDup_elements|].
    apply elem_of_elements, elem_of_build_signature_set.
    by exists offset, conds, sig.
  - intros entry entry' self ? ?. by apply include_entry_again.
  - unfold parse, parse_files, exists_.
    rewrite !bool_decide_eq_true_2 by (unfold is_Some; eauto).
    rewrite (parse_file_single _ _ _ _ _ Hfile1 Hline1 Hinc1).
    rewrite (parse_file_single _ _ _ _ _ Hfile2 Hline2 Hinc2).
    cbn -[include_entry build_signature_set fd_write].
    set (self1 := (build_signature_set
                     (fd_write (include_entry entry1 (init fd_name)) line1)).2).
    assert (signatures (fd_write (include_entry entry2 self1) line2)
            = {[0%Z := ["AB"]]}) as Hsigs.
    { change (signatures (fd_write ?s _)) with (signatures s).
      rewrite include_entry_signatures.
      change (signatures self1) with (signatures (include_entry entry1 (init fd_name))).
      rewrite include_entry_signatures.
      rewrite Hoff1, Hoff2, Hcond1, Hcond2. cbn.
      rewrite lookup_insert_eq. cbn.
      by rewrite insert_insert_eq, insert_empty. }
    rewrite build_signature_set_snd, build_signature_set_fst, Hsigs.
    cbn -[self1]. split_and!.
    + apply lookup_singleton_eq.
    + unfold compiled_list. rewrite map_to_list_singleton.
      cbn. f_equal.
    + apply elements_singleton.
Qed.

End dedup.

Lemma duplicate_conditions_collapse_witness :
  let fs : filesystem :=
    {[ "first.magic" := ["0 string AB first"];
       "second.magic" := ["0 string AB second"] ]} in
  let loaded :=
    (@parse example_collaborators fs (FileList ["first.magic"; "second.magic"])
       (init "tmp")).2 in
  signatures loaded !! 0%Z = Some ["AB"] ∧
  signature_set loaded = Some {[Literal "AB"]}.
Proof.
  intros fs loaded.
  destruct (@duplicate_conditions_collapse example_collaborators fs
              "first.magic" "second.magic"
              "0 string AB first" "0 string AB second" "tmp"
              (Entry.Build 0 "string" "AB" "first" 2)
              (Entry.Build 0 "string" "AB" "second" 2))
    as (_ & _ & _ & Hsigs & Hset & _);
    [reflexivity | reflexivity | reflexivity | reflexivity
    | split; reflexivity | split; reflexivity | reflexivity | reflexivity |].
  exact (conj Hsigs Hset).
Defined.

(** ** Loading files *)

Section loading.
Context `{Collaborators}.


(** A malformed line makes [_parse_line] raise. *)
Lemma malformed_Raise (line : string) :
  malformed line → ∃ e, _parse_line line = Raise e.
Proof.
  intros [Hdigit Hbad].
  destruct (_parse_line line) as [r|e] eqn:Hparse; [|eauto].
  destruct (parse_line_digit _ _ Hdigit Hparse) as [entry ->].
  apply parse_line_Some in Hparse
    as (offset_tok & type & token & condition & offset & _ & Hp0 & Hp1 & Hp2
        & Hdec & Hoff & Hentry).
  simpl in Hentry.
  destruct Hbad as [Hshort|[(offset' & Hp0' & Hoff')|(type' & condition' & Hnum & Hint)]].
  - apply lookup_lt_Some in Hp2. lia.
  - simplify_eq.
  - destruct Hnum as (token' & ? & ? & ? & Hbranch). simplify_eq.
    rewrite Hbranch in Hentry. destruct Hentry as (intval & ? & _). simplify_eq.
Qed.


(** The loop never touches the compiled set, the standard output or the
    name of the temporary file. *)
Lemma parse_file_loop_frame (lines : list string) (include : bool)
    (line_count : Z) (self : MagicParser) :
  let self' := (parse_file_loop lines include line_count self).1.1 in
  signature_set self' = signature_set self ∧
  stdout self' = stdout self ∧
  name (fd self') = name (fd self).
Proof.
  revert include line_count self.
  induction lines as [|l lines IH]; intros include line_count self; [done|].
  simpl. destruct (_parse_line l) as [r|e]; [|done].
  destruct r as [entry|]; [destruct (filter_include _)|];
    try destruct include;
    match goal with
    | |- context [parse_file_loop lines ?i ?n ?s] =>
        destruct (IH i n s) as (-> & -> & ->)
    end; done.
Qed.

End loading.

Section malformed_lines.
Context `{Collaborators}.


End malformed_lines.



(** ** Missing files *)

Section missing_files.
Context `{Collaborators}.






Lemma parse_of_parse_files (fs : filesystem) (files : list string)
    (self : MagicParser) :
  parse fs (FileList files) self
  = match parse_files fs files self with
    | (Return _, self') =>
        (Return (name (fd self')),
         Parser (signatures self') (signature_set self')
           (signature_count self') (seek0 (fd self')) (stdout self'))
    | (Raise e, self') => (Raise e, self')
    end.
Proof. unfold parse. by destruct (parse_files fs files self) as [[[]|e] self']. Qed.



End missing_files.


(** ** The compiled set after a load *)

Section rebuild.
Context `{Collaborators}.

Lemma parse_file_up_to_date (fs : filesystem) (file_name : string)
    (self self' : MagicParser) :
  parse_file fs file_name self = (Return (), self') → up_to_date self'.
Proof.
  unfold parse_file. destruct (fs !! file_name) as [lines|]; [|done].
  destruct (parse_file_loop lines false 0 self) as [[self1 n] [e|]]; [done|].
  by intros [= <-].
Qed.


Lemma up_to_date_scan (self : MagicParser) (data : string) (end_ : Z) :
  up_to_date self →
  find_signature_candidates self data end_
  = Return (candidates (build_signature_set self).1 (bytes2str data) end_).
Proof. unfold find_signature_candidates. by intros ->. Qed.


End rebuild.


(** ** The wildcard pattern and the newline byte *)

Section wildcard_scan.

(** Where the wildcard pattern is in the compiled set, every position
    below the bound that holds a byte other than a newline is a
    candidate. *)
Lemma dot_candidates (signature_set : gset matcher) (data : string)
    (end_ : Z) (i : nat) (c : ascii) :
  Dot ∈ signature_set →
  String.get i data = Some c → c ≠ "010"%char → (Z.of_nat i < end_)%Z →
  Z.of_nat i ∈ candidates signature_set data end_.
Proof.
  intros Hdot Hget Hc Hend. apply elem_of_candidates. split; [done|].
  exists Dot. split; [done|]. apply finditer_dot. eauto.
Qed.

(** A newline is never a match of the wildcard pattern. *)
Lemma dot_not_newline (data : string) (i : nat) :
  String.get i data = Some "010"%char → Z.of_nat i ∉ finditer Dot data.
Proof.
  intros Hget (j & c & Hj & Hc & Hne)%finditer_dot.
  apply Nat2Z.inj in Hj as <-. congruence.
Qed.

End wildcard_scan.

(** C2, at a buffer that holds a newline: the catalog of the two entries
    [0 byte 0xff] and [0 byte x] compiles to two matchers, the literal byte
    [0xff] and the wildcard pattern, but the wildcard pattern is ['.']
    compiled without [re.DOTALL], which does not match the newline byte.  On
    the one-byte buffer [0x0A] with bound 1 the scanner returns no candidate,
    and on ["a
b"] it returns positions 0 and 2 but not 1. *)
Theorem wildcard_skips_newline :
  let fs : filesystem :=
    {[ "c.magic" := ["0 byte 0xff literal"; "0 byte x wildcard"] ]} in
  let loaded :=
    (@parse example_collaborators fs (OneFile "c.magic") (init "tmp")).2 in
  signatures loaded !! 0%Z = Some [String "255" ""; "x"] ∧
  signature_set loaded = Some {[Literal (String "255" ""); Dot]} ∧
  size ({[Literal (String "255" ""); Dot]} : gset matcher) = 2 ∧
  finditer Dot (String "010" "") = [] ∧
  find_signature_candidates loaded (String "010" "") 1 = Return [] ∧
  find_signature_candidates loaded (String "a" (String "010" "b")) 3
    = Return [0; 2]%Z.
Proof. vm_compute. done. Qed.

(** ** The scenarios of the specification, run on the model *)

(** Scenario A: a string signature found at position 7. *)
Example scenario_string_signature :
  let fs : filesystem := {[ "a.magic" := ["0 string HELLO Greeting"] ]} in
  let loaded :=
    (@parse example_collaborators fs (OneFile "a.magic") (init "tmp")).2 in
  find_signature_candidates loaded "0123456HELLO, world" 100 = Return [7%Z].
Proof. vm_compute. done. Qed.

(** Scenario B: a big-endian long found at position 10. *)
Example scenario_big_endian_long :
  let fs : filesystem := {[ "b.magic" := ["0 belong 0x1234 BE value"] ]} in
  let loaded :=
    (@parse example_collaborators fs (OneFile "b.magic") (init "tmp")).2 in
  find_signature_candidates loaded
    ("0123456789"
       +:+ String "000" (String "000" (String "018" (String "052" "tail"))))
    11 = Return [10%Z].
Proof. vm_compute. done. Qed.

(** Scenario D: an excluded description leaves the catalog empty. *)
Example scenario_excluded_entry :
  let fs : filesystem := {[ "d.magic" := ["0 string AB Noise"; ">2 byte 1 more"] ]} in
  let loaded :=
    (@parse example_collaborators fs (OneFile "d.magic") (init "tmp")).2 in
  signatures loaded = ∅ ∧ signature_count loaded = 0%Z ∧
  content (fd loaded) = "" ∧
  find_signature_candidates loaded "xxABxx" 100 = Return [].
Proof. vm_compute. done. Qed.

(** * Further properties of the scanner *)

Section finditer_facts.

Lemma str_drop_cons (n : nat) (c : ascii) (s : string) :
  str_drop (S n) (String c s) = str_drop n s.
Proof. done. Qed.

Lemma str_drop_nil (n : nat) : str_drop n "" = "".
Proof. by destruct n. Qed.

Lemma prefix_nil_false (sig : string) :
  sig ≠ "" → String.prefix sig "" = false.
Proof. by destruct sig. Qed.

(** A match never starts inside the part of the data a previous match
    covers. *)
Lemma finditer_go_skip (regex : matcher) (skip : nat) (pos : Z)
    (data : string) (p : Z) :
  skip ≤ match_length regex - 1 →
  p ∈ finditer_go regex skip pos data → (pos + Z.of_nat skip ≤ p)%Z.
Proof.
  revert skip pos. induction data as [|c rest IH]; intros skip pos Hskip Hp.
  - simpl in Hp. destruct regex as [|[|]]; try by apply elem_of_nil in Hp.
    apply list_elem_of_singleton in Hp as ->. simpl in Hskip. lia.
  - rewrite finditer_go_cons in Hp. destruct skip as [|k].
    + destruct regex as [|sig].
      * destruct (dot_matches c); [apply elem_of_cons in Hp as [->|Hp]; [lia|]|];
          apply IH in Hp; simpl; lia.
      * destruct (String.prefix sig (String c rest));
          [apply elem_of_cons in Hp as [->|Hp]; [lia|]|];
          apply IH in Hp; simpl; lia.
    + apply IH in Hp; lia.
Qed.

(** The matches [finditer] reports are in strictly ascending order and do
    not overlap: each starts at least the length of the pattern, and at
    least one byte, after the one before it. *)
Lemma finditer_ascending_disjoint (regex : matcher) (data : string) :
  StronglySorted
    (λ p q, p + Z.max 1 (Z.of_nat (match_length regex)) ≤ q)%Z
    (finditer regex data).
Proof.
  enough (∀ skip pos, skip ≤ match_length regex - 1 →
            StronglySorted
              (λ p q, p + Z.max 1 (Z.of_nat (match_length regex)) ≤ q)%Z
              (finditer_go regex skip pos data)) as Hgo
    by (apply Hgo; lia).
  induction data as [|c rest IH]; intros skip pos Hskip.
  - simpl. destruct regex as [|[|]]; repeat constructor.
  - rewrite finditer_go_cons. destruct skip as [|k]; [|apply IH; lia].
    destruct regex as [|sig].
    + destruct (dot_matches c); [|by apply IH].
      constructor; [by apply IH|].
      apply Forall_forall. intros q Hq%finditer_go_skip; simpl in *; lia.
    + destruct (String.prefix sig (String c rest)); [|apply IH; lia].
      constructor; [apply IH; simpl; lia|].
      apply Forall_forall. intros q Hq%finditer_go_skip; simpl in *; lia.
Qed.

(** Where a non-empty literal occurs, a reported match covers the start of
    the occurrence. *)
Lemma finditer_go_covers (sig : string) (data : string) (skip : nat)
    (pos : Z) (n : nat) :
  sig ≠ "" → skip ≤ n →
  String.prefix sig (str_drop n data) = true →
  ∃ q, q ∈ finditer_go (Literal sig) skip pos data ∧
       (q ≤ pos + Z.of_nat n < q + Z.of_nat (String.length sig))%Z.
Proof.
  intros Hsig.
  assert (1 ≤ String.length sig) as Hlen by (destruct sig; simpl; [done|lia]).
  revert skip pos n.
  induction data as [|c rest IH]; intros skip pos n Hskip Hocc.
  - by rewrite str_drop_nil, prefix_nil_false in Hocc.
  - assert (∀ k n', n = S n' → k ≤ n' →
              ∃ q, q ∈ finditer_go (Literal sig) k (pos + 1) rest ∧
                   (q ≤ pos + Z.of_nat n < q + Z.of_nat (String.length sig))%Z)
      as Hrest.
    { intros k n' -> Hk. rewrite str_drop_cons in Hocc.
      destruct (IH k (pos + 1)%Z n' Hk Hocc) as (q & Hq & ?).
      exists q. split; [done|lia]. }
    rewrite finditer_go_cons. destruct skip as [|k].
    + destruct (String.prefix sig (String c rest)) eqn:Hpre.
      * destruct (decide (n < String.length sig)) as [Hn|Hn].
        -- exists pos. split; [by apply elem_of_cons; left | lia].
        -- destruct n as [|n']; [lia|].
           destruct (Hrest (String.length sig - 1) n' eq_refl) as (q & Hq & ?);
             [lia|].
           exists q. split; [by apply elem_of_cons; right | done].
      * destruct n as [|n'];
          [change (str_drop 0 ?s) with s in Hocc; congruence|].
        by apply (Hrest 0 n'); [|lia].
    + destruct n as [|n']; [lia|]. by apply (Hrest k n'); [|lia].
Qed.

(** Every occurrence of a non-empty literal starts inside a reported match,
    and the leftmost occurrence is itself reported. *)
Lemma finditer_literal_complete (sig data : string) (p : Z) :
  sig ≠ "" →
  occurs_at sig data p →
  (∃ q, q ∈ finditer (Literal sig) data ∧ occurs_at sig data q ∧
        (q ≤ p < q + Z.of_nat (String.length sig))%Z) ∧
  ((∀ p', occurs_at sig data p' → p ≤ p')%Z → p ∈ finditer (Literal sig) data).
Proof.
  intros Hsig [Hp Hocc].
  destruct (finditer_go_covers sig data 0 0 (Z.to_nat p) Hsig ltac:(lia) Hocc)
    as (q & Hq & Hcover).
  fold (finditer (Literal sig) data) in Hq.
  pose proof (literal_matches_only sig data q Hq) as Hoccq.
  split.
  - exists q. split_and!; [done..|lia|lia].
  - intros Hleft. specialize (Hleft q Hoccq).
    by replace p with q by lia.
Qed.

Lemma prefix_single (c : ascii) (n : nat) (data : string) :
  String.prefix (String c "") (str_drop n data) = true ↔
  String.get n data = Some c.
Proof.
  revert n. induction data as [|d rest IH]; intros n.
  - by destruct n.
  - destruct n as [|n]; [|by rewrite str_drop_cons, IH].
    simpl. destruct (ascii_dec c d) as [->|Hne].
    + by destruct rest.
    + split; [done|]. intros [= ->]. done.
Qed.

(** A one-byte literal pattern is found at exactly the positions that hold
    that byte. *)
Lemma finditer_single_byte (c : ascii) (data : string) (p : Z) :
  p ∈ finditer (Literal (String c "")) data ↔
  (0 ≤ p)%Z ∧ String.get (Z.to_nat p) data = Some c.
Proof.
  split.
  - intros [? Hocc]%literal_matches_only. split; [done|].
    by apply prefix_single.
  - intros [Hp Hget%prefix_single].
    destruct (finditer_literal_complete (String c "") data p) as [(q & Hq & _ & ?) _];
      [done | by split |].
    simpl in *. by replace p with q by lia.
Qed.

Lemma finditer_go_empty (pos : Z) (data : string) (p : Z) :
  p ∈ finditer_go (Literal "") 0 pos data ↔
  (pos ≤ p ≤ pos + Z.of_nat (String.length data))%Z.
Proof.
  revert pos. induction data as [|c rest IH]; intros pos.
  - simpl. rewrite list_elem_of_singleton. lia.
  - rewrite finditer_go_cons. simpl. rewrite elem_of_cons, IH. lia.
Qed.

(** X1: the scanner misses an occurrence of a non-empty literal of its
    matcher set only where it overlaps a match already reported.  An
    occurrence below the bound starts inside a match that is a candidate;
    the leftmost occurrence is itself a candidate, and so is every
    occurrence of a one-byte literal. *)
Theorem scanner_finds_literal (self : MagicParser) (compiled : gset matcher)
    (sig data : string) (end_ p : Z) :
  signature_set self = Some compiled →
  Literal sig ∈ compiled → sig ≠ "" →
  occurs_at sig data p → (p < end_)%Z →
  ∃ offsets,
    find_signature_candidates self data end_ = Return offsets ∧
    (∃ q, q ∈ offsets ∧ occurs_at sig data q ∧
          (q ≤ p < q + Z.of_nat (String.length sig))%Z) ∧
    ((∀ p', occurs_at sig data p' → p ≤ p')%Z → p ∈ offsets) ∧
    (String.length sig = 1 → p ∈ offsets).
Proof.
  intros Hset Hin Hsig Hocc Hend.
  unfold find_signature_candidates, bytes2str. rewrite Hset.
  eexists. split; [done|].
  destruct (finditer_literal_complete sig data p Hsig Hocc)
    as [(q & Hq & Hoccq & Hcover) Hleft].
  assert (∀ r, r ∈ finditer (Literal sig) data → (r < end_)%Z →
               r ∈ candidates compiled data end_) as Hcand.
  { intros r Hr Hlt. apply elem_of_candidates. eauto. }
  split_and!.
  - exists q. split_and!; [apply Hcand; [done|lia] | done | lia | lia].
  - intros Hfirst. apply Hcand; [by apply Hleft | done].
  - intros Hone. replace p with q by lia. apply Hcand; [done|lia].
Qed.

(** X2: the empty pattern matches at every position of the data and at its
    end, so a catalog that holds the empty condition makes every position
    below the bound a candidate. *)
Theorem empty_condition_matches_everywhere (self : MagicParser)
    (offset : Z) (conds : list string) (data : string) (end_ p : Z) :
  up_to_date self →
  signatures self !! offset = Some conds → "" ∈ conds →
  (p ∈ finditer (Literal "") data ↔ 0 ≤ p ≤ Z.of_nat (String.length data))%Z ∧
  ∃ offsets,
    find_signature_candidates self data end_ = Return offsets ∧
    ((0 ≤ p ≤ Z.of_nat (String.length data))%Z → (p < end_)%Z → p ∈ offsets).
Proof.
  intros Hcurrent Hconds Hempty.
  assert (p ∈ finditer (Literal "") data ↔
          0 ≤ p ≤ Z.of_nat (String.length data))%Z as Hall.
  { unfold finditer. rewrite finditer_go_empty. lia. }
  split; [done|].
  rewrite up_to_date_scan by done. eexists. split; [done|].
  intros Hp Hend. apply elem_of_candidates. split; [done|].
  exists (Literal ""). split; [|by apply Hall].
  apply elem_of_build_signature_set. by exists offset, conds, "".
Qed.

End finditer_facts.

Section bound_facts.

Lemma StronglySorted_filter_lt (P : Z → Prop) `{∀ p, Decision (P p)}
    (l : list Z) :
  StronglySorted Z.lt l → StronglySorted Z.lt (filter P l).
Proof.
  induction 1 as [|x l Hsorted IH Hx]; [constructor|].
  destruct (decide (P x)).
  - rewrite filter_cons_True by done. constructor; [done|].
    apply Forall_forall. intros y [_ Hy]%list_elem_of_filter.
    rewrite Forall_forall in Hx. by apply Hx.
  - by rewrite filter_cons_False.
Qed.

(** A strictly ascending list is determined by its members. *)
Lemma candidates_unique (signature_set : gset matcher) (data : string)
    (end_ : Z) (l : list Z) :
  StronglySorted Z.lt l →
  (∀ p, p ∈ l ↔ p ∈ candidates signature_set data end_) →
  l = candidates signature_set data end_.
Proof.
  intros Hsorted Hmem.
  apply (StronglySorted_unique_strong Z.lt);
    [intros; lia | done | apply candidates_ascending |].
  apply NoDup_Permutation; [|apply NoDup_candidates|done].
  clear Hmem. induction Hsorted as [|x l _ IH Hx]; constructor; [|done].
  rewrite Forall_forall in Hx. intros Hin%Hx. lia.
Qed.

Lemma candidates_within (signature_set : gset matcher) (data : string)
    (end_ p : Z) :
  p ∈ candidates signature_set data end_ →
  (0 ≤ p ≤ Z.of_nat (String.length data))%Z.
Proof.
  intros (_ & regex & _ & Hp%finditer_go_range)%elem_of_candidates. lia.
Qed.

(** X3: the bound only cuts the result off.  The candidates below a bound
    are the candidates below any larger bound that lie below it; no offset
    exceeds the length of the buffer, so a bound beyond the buffer changes
    nothing. *)
Theorem bound_only_filters (self : MagicParser) (compiled : gset matcher)
    (data : string) (end1 end2 : Z) :
  signature_set self = Some compiled →
  (end1 ≤ end2)%Z →
  ∃ offsets1 offsets2,
    find_signature_candidates self data end1 = Return offsets1 ∧
    find_signature_candidates self data end2 = Return offsets2 ∧
    offsets1 = filter (λ p, p < end1)%Z offsets2 ∧
    Forall (λ p, p ≤ Z.of_nat (String.length data))%Z offsets2 ∧
    ((Z.of_nat (String.length data) < end1)%Z → offsets1 = offsets2).
Proof.
  intros Hset Hle. unfold find_signature_candidates, bytes2str. rewrite Hset.
  do 2 eexists. split_and!; [done..| | |].
  - symmetry. apply candidates_unique.
    + apply StronglySorted_filter_lt, candidates_ascending.
    + intros p. rewrite list_elem_of_filter, !elem_of_candidates.
      split; [intros (? & ? & ?); eauto | intros (? & ?); split_and!; [done|lia|done]].
  - apply Forall_forall. intros p Hp%candidates_within. lia.
  - intros Hbeyond. apply candidates_unique; [apply candidates_ascending|].
    intros p. rewrite !elem_of_candidates.
    split; intros (? & regex & ? & Hp); (split; [|eauto]).
    + lia.
    + apply finditer_go_range in Hp. lia.
Qed.

(** X4: the declared offsets play no part in matching.  Two catalogs with
    the same conditions, at whatever offsets, compile to the same matcher
    set. *)
Theorem build_signature_set_ignores_offsets (self1 self2 : MagicParser) :
  (∀ sig, sig ∈ all_conditions (signatures self1)
          ↔ sig ∈ all_conditions (signatures self2)) →
  (build_signature_set self1).1 = (build_signature_set self2).1.
Proof.
  intros Hsame. apply set_eq. intros regex.
  rewrite !build_signature_set_fst, !elem_of_list_to_set,
    !compiled_list_conditions, !list_elem_of_fmap.
  by setoid_rewrite Hsame.
Qed.

End bound_facts.

Lemma empty_condition_matches_everywhere_witness :
  let self :=
    Parser {[7%Z := [""]]} (Some {[Literal ""]}) 1 (Tempfile "tmp" "" 0) [] in
  (2%Z ∈ finditer (Literal "") "abc" ↔ 0 ≤ 2 ≤ Z.of_nat (String.length "abc"))%Z ∧
  ∃ offsets,
    find_signature_candidates self "abc" 3 = Return offsets ∧
    ((0 ≤ 2 ≤ Z.of_nat (String.length "abc"))%Z → (2 < 3)%Z → 2%Z ∈ offsets).
Proof.
  intros self.
  apply (empty_condition_matches_everywhere self 7 [""] "abc" 3 2).
  - vm_compute. reflexivity.
  - reflexivity.
  - by apply elem_of_cons; left.
Defined.

Lemma bound_only_filters_witness :
  ∃ offsets1 offsets2,
    find_signature_candidates
      (Parser ∅ (Some {[Literal "AB"; Dot]}) 0 (Tempfile "tmp" "" 0) [])
      "xABAB" 2 = Return offsets1 ∧
    find_signature_candidates
      (Parser ∅ (Some {[Literal "AB"; Dot]}) 0 (Tempfile "tmp" "" 0) [])
      "xABAB" 4 = Return offsets2 ∧
    offsets1 = filter (λ p, p < 2)%Z offsets2 ∧
    Forall (λ p, p ≤ Z.of_nat (String.length "xABAB"))%Z offsets2 ∧
    ((Z.of_nat (String.length "xABAB") < 2)%Z → offsets1 = offsets2).
Proof.
  apply (bound_only_filters
           (Parser ∅ (Some {[Literal "AB"; Dot]}) 0 (Tempfile "tmp" "" 0) [])
           {[Literal "AB"; Dot]} "xABAB" 2 4); [reflexivity | lia].
Defined.

Lemma build_signature_set_ignores_offsets_witness :
  (build_signature_set
     (Parser {[0%Z := ["AB"; "x"]]} None 2 (Tempfile "tmp" "" 0) [])).1
  = (build_signature_set
       (Parser {[4%Z := ["x"]; 9%Z := ["AB"]]} None 2 (Tempfile "tmp" "" 0) [])).1.
Proof.
  apply (build_signature_set_ignores_offsets
           (Parser {[0%Z := ["AB"; "x"]]} None 2 (Tempfile "tmp" "" 0) [])
           (Parser {[4%Z := ["x"]; 9%Z := ["AB"]]} None 2 (Tempfile "tmp" "" 0) [])).
  intros sig. vm_compute all_conditions.
  rewrite !elem_of_cons, !elem_of_nil. tauto.
Defined.

(** * Further properties of the encoder *)

Section encoder_roundtrip.

Local Abbreviation byte_of value i :=
  (Z.land (Z.shiftr value (8 * Z.of_nat i)) 255).

Lemma to_string_loop_S (value : Z) (i n : nat) :
  to_string_loop value i (S n) ""
  = String (Py.chr (byte_of value i)) (to_string_loop value (S i) n "").
Proof.
  simpl. change ("" +:+ ?s) with s. by rewrite to_string_loop_app.
Qed.

Lemma int_of_bytes_le_loop (value : Z) (i n : nat) :
  int_of_bytes_le (to_string_loop value i n "")
  = (Z.shiftr value (8 * Z.of_nat i) mod 2 ^ (8 * Z.of_nat n))%Z.
Proof.
  revert i. induction n as [|n IH]; intros i.
  - simpl. by rewrite Z.mod_1_r.
  - rewrite to_string_loop_S. simpl int_of_bytes_le.
    rewrite IH, ord_chr by apply land_255_range.
    change 255%Z with (Z.ones 8). rewrite Z.land_ones by lia.
    replace (8 * Z.of_nat (S i))%Z with (8 * Z.of_nat i + 8)%Z by lia.
    rewrite <- Z.shiftr_shiftr by lia.
    rewrite (Z.shiftr_div_pow2 _ 8) by lia.
    replace (8 * Z.of_nat (S n))%Z with (8 + 8 * Z.of_nat n)%Z by lia.
    rewrite Z.pow_add_r by lia.
    symmetry. apply Z.rem_mul_r; lia.
Qed.

Lemma rev_snoc (s : string) (c : ascii) :
  String.rev (s +:+ String c "") = String c (String.rev s).
Proof.
  induction s as [|d s IH]; [done|].
  by rewrite app_cons, !rev_cons, IH.
Qed.

Lemma rev_involutive (s : string) : String.rev (String.rev s) = s.
Proof.
  induction s as [|c s IH]; [done|]. by rewrite rev_cons, rev_snoc, IH.
Qed.

(** X5: reading the bytes [_to_string] returns back as an integer, least
    significant byte first (after undoing the reversal for big-endian),
    gives the value modulo [256 ^ size]: a value that fits in [size] bytes
    comes back unchanged, a larger or negative one wrapped. *)
Theorem to_string_roundtrip (value : Z) (size : nat) :
  int_of_bytes_le (_to_string value size LITTLE_ENDIAN)
    = (value mod 2 ^ (8 * Z.of_nat size))%Z ∧
  int_of_bytes_le (Py.reversed (_to_string value size BIG_ENDIAN))
    = (value mod 2 ^ (8 * Z.of_nat size))%Z.
Proof.
  assert (int_of_bytes_le (_to_string value size LITTLE_ENDIAN)
          = (value mod 2 ^ (8 * Z.of_nat size))%Z) as Hlittle.
  { rewrite to_string_little, int_of_bytes_le_loop. simpl. by rewrite Z.shiftr_0_r. }
  split; [done|].
  rewrite to_string_big. unfold Py.reversed. by rewrite rev_involutive.
Qed.

Lemma byte_of_mod (value : Z) (size i : nat) :
  i < size →
  byte_of (value mod 2 ^ (8 * Z.of_nat size))%Z i = byte_of value i.
Proof.
  intros Hi. apply Z.bits_inj'. intros k Hk.
  rewrite !Z.land_spec, !Z.shiftr_spec by done.
  destruct (decide (k < 8)%Z) as [Hlt|Hge].
  - by rewrite Z.mod_pow2_bits_low by lia.
  - change 255%Z with (Z.ones 8).
    rewrite Z.ones_spec_high by lia. by rewrite !andb_false_r.
Qed.

Lemma to_string_loop_ext (v w : Z) (i n : nat) (data : string) :
  (∀ k, i ≤ k < i + n → byte_of v k = byte_of w k) →
  to_string_loop v i n data = to_string_loop w i n data.
Proof.
  revert i data. induction n as [|n IH]; intros i data Hbytes; [done|].
  simpl. rewrite Hbytes by lia. apply IH. intros k Hk. apply Hbytes. lia.
Qed.

(** X6: two integers get the same encoding exactly when they are congruent
    modulo [256 ^ size]; the encoder drops whatever does not fit. *)
Theorem to_string_same_iff (v w : Z) (size : nat) (endianess : string) :
  _to_string v size endianess = _to_string w size endianess ↔
  (v mod 2 ^ (8 * Z.of_nat size) = w mod 2 ^ (8 * Z.of_nat size))%Z.
Proof.
  split.
  - intros Hsame.
    assert (to_string_loop v 0 size "" = to_string_loop w 0 size "") as Hloop.
    { unfold _to_string, Py.reversed in Hsame.
      destruct (negb _); [|done].
      by rewrite <- (rev_involutive (to_string_loop v 0 size "")), Hsame,
        rev_involutive. }
    pose proof (int_of_bytes_le_loop v 0 size) as Hv.
    pose proof (int_of_bytes_le_loop w 0 size) as Hw.
    rewrite Hloop, Hw in Hv. simpl in Hv. by rewrite !Z.shiftr_0_r in Hv.
  - intros Hmod. unfold _to_string.
    rewrite (to_string_loop_ext v w 0 size ""); [done|].
    intros k Hk.
    rewrite <- (byte_of_mod v size k), <- (byte_of_mod w size k) by lia.
    by rewrite Hmod.
Qed.

End encoder_roundtrip.

(** * Further properties of the line parser *)

Section parse_line_outcomes.
Context `{Collaborators}.

(** X7: [_parse_line] ignores exactly the lines that do not start with a
    decimal digit, and on a digit-led line it raises exactly when the line
    has fewer than three tokens, the condition token cannot be decoded, the
    offset is not an integer literal, or the entry is numeric and its
    condition, stripped of ["L"], is not one. *)
Theorem parse_line_outcomes (line : string) :
  (_parse_line line = Return None ↔ not_digit_led line = true) ∧
  ((∃ e, _parse_line line = Raise e) ↔
   malformed line ∨
   (not_digit_led line = false ∧
    ∃ token, line_parts line !! 2 = Some token ∧ string_decode token = None)).
Proof.
  split.
  - split; [|apply parse_line_not_digit].
    destruct (not_digit_led line) eqn:Hdigit; [done|].
    intros Hparse. by destruct (parse_line_digit _ _ Hdigit Hparse).
  - split.
    + intros [e Hparse]. unfold malformed, numeric_line.
      unfold _parse_line, getitem, call_string_decode, call_str2int in Hparse.
      destruct (not_digit_led line); [done|].
      destruct (line_parts line !! 0) as [offset_tok|] eqn:Hp0.
      2:{ left. split; [done|]. left. apply lookup_ge_None in Hp0. lia. }
      destruct (line_parts line !! 1) as [type|] eqn:Hp1.
      2:{ left. split; [done|]. left. apply lookup_ge_None in Hp1. lia. }
      destruct (line_parts line !! 2) as [token|] eqn:Hp2.
      2:{ left. split; [done|]. left. apply lookup_ge_None in Hp2. lia. }
      simpl in Hparse.
      destruct (string_decode token) as [condition|] eqn:Hdec; [|by eauto].
      simpl in Hparse.
      destruct (str2int offset_tok) as [offset|] eqn:Hoff.
      2:{ left. split; [done|]. right. left. eauto. }
      simpl in Hparse.
      destruct (Py.contains "string" type || String.eqb condition WILDCARD)
        eqn:Hbranch; [done|].
      destruct (str2int (Py.strip condition "L")) eqn:Hint; [done|].
      left. split; [done|]. right. right.
      exists type, condition. split; [|done]. by exists token.
    + intros [Hbad|(Hdigit & token & Hp2 & Hdec)]; [by apply malformed_Raise|].
      unfold _parse_line, getitem, call_string_decode. rewrite Hdigit, Hp2.
      assert (is_Some (line_parts line !! 0)) as [offset_tok ->].
      { apply lookup_lt_is_Some. apply lookup_lt_Some in Hp2. lia. }
      assert (is_Some (line_parts line !! 1)) as [type ->].
      { apply lookup_lt_is_Some. apply lookup_lt_Some in Hp2. lia. }
      simpl. rewrite Hdec. simpl. eauto.
Qed.

End parse_line_outcomes.

(** * Further properties of the catalog *)

Section catalog_add_facts.

Lemma in_catalog_add (sigs : gmap Z (list string)) (offset o : Z)
    (condition sig : string) :
  in_catalog (catalog_add offset condition sigs) o sig ↔
  in_catalog sigs o sig ∨ (o = offset ∧ sig = condition).
Proof.
  unfold in_catalog, catalog_add.
  destruct (decide (o = offset)) as [->|Hne].
  - rewrite lookup_insert_eq. simpl.
    destruct (sigs !! offset) as [conds|] eqn:Hconds; simpl.
    + case_bool_decide as Hin.
      * split; [intros (? & [= <-] & ?); left; eauto|].
        intros [(? & [= <-] & ?)|[_ ->]]; eauto.
      * split.
        -- intros (? & [= <-] & [? | ->%list_elem_of_singleton]%elem_of_app);
             [left; eauto | by right].
        -- intros [(? & [= <-] & ?)|[_ ->]]; eexists; (split; [done|]);
             apply elem_of_app; [by left | right; by apply elem_of_cons; left].
    + split.
      * intros (? & [= <-] & ->%list_elem_of_singleton). by right.
      * intros [(? & ? & _)|[_ ->]]; [done|]. eexists. split; [done|].
        by apply elem_of_cons; left.
  - rewrite lookup_insert_ne by done. split; [by left|].
    by intros [?|[? _]].
Qed.

Lemma catalog_add_grows (sigs : gmap Z (list string)) (offset o : Z)
    (condition : string) (conds : list string) :
  sigs !! o = Some conds →
  ∃ conds', catalog_add offset condition sigs !! o = Some conds' ∧
            conds `prefix_of` conds'.
Proof.
  intros Hconds. unfold catalog_add.
  destruct (decide (o = offset)) as [->|Hne].
  - rewrite lookup_insert_eq, Hconds. simpl. eexists. split; [done|].
    case_bool_decide; [done | by apply prefix_app_r].
  - rewrite lookup_insert_ne by done. eauto.
Qed.

Lemma catalog_add_NoDup (sigs : gmap Z (list string)) (offset : Z)
    (condition : string) :
  map_Forall (λ _ conds, NoDup conds) sigs →
  map_Forall (λ _ conds, NoDup conds) (catalog_add offset condition sigs).
Proof.
  intros Hnodup. apply map_Forall_insert_2; [|done]. simpl.
  destruct (sigs !! offset) as [conds|] eqn:Hconds; simpl.
  - apply Hnodup in Hconds. case_bool_decide; [done|].
    apply NoDup_app. split_and!; [done| |apply NoDup_singleton].
    intros sig ? ->%list_elem_of_singleton. done.
  - apply NoDup_singleton.
Qed.


Lemma in_catalog_fold (sigs : gmap Z (list string)) (entries : list Entry.t)
    (o : Z) (sig : string) :
  in_catalog (catalog_fold sigs entries) o sig ↔
  in_catalog sigs o sig ∨
  ∃ entry, entry ∈ entries ∧ Entry.offset entry = o ∧ Entry.condition entry = sig.
Proof.
  unfold catalog_fold. revert sigs.
  induction entries as [|entry entries IH]; intros sigs; simpl.
  - split; [by left|]. by intros [?|(? & ?%elem_of_nil & _)].
  - rewrite IH, in_catalog_add. split.
    + intros [[?|[-> ->]]|(e & ? & ? & ?)]; [by left|right..].
      * exists entry. split; [by apply elem_of_cons; left|done].
      * exists e. split; [by apply elem_of_cons; right|done].
    + intros [?|(e & [-> | ?]%elem_of_cons & <- & <-)];
        [by left; left | by left; right | right; eauto].
Qed.

Lemma catalog_fold_grows (sigs : gmap Z (list string))
    (entries : list Entry.t) (o : Z) (conds : list string) :
  sigs !! o = Some conds →
  ∃ conds', catalog_fold sigs entries !! o = Some conds' ∧
            conds `prefix_of` conds'.
Proof.
  unfold catalog_fold. revert sigs conds.
  induction entries as [|entry entries IH]; intros sigs conds Hconds; simpl.
  - eauto.
  - destruct (catalog_add_grows sigs (Entry.offset entry) o
                (Entry.condition entry) conds Hconds) as (conds1 & H1 & Hpre1).
    destruct (IH _ _ H1) as (conds' & H' & Hpre').
    exists conds'. split; [done | by etrans].
Qed.

Lemma catalog_fold_NoDup (sigs : gmap Z (list string))
    (entries : list Entry.t) :
  map_Forall (λ _ conds, NoDup conds) sigs →
  map_Forall (λ _ conds, NoDup conds) (catalog_fold sigs entries).
Proof.
  unfold catalog_fold. revert sigs.
  induction entries as [|entry entries IH]; intros sigs Hnodup; simpl; [done|].
  by apply IH, catalog_add_NoDup.
Qed.


Lemma catalog_fold_app (sigs : gmap Z (list string))
    (entries1 entries2 : list Entry.t) :
  catalog_fold sigs (entries1 ++ entries2)
  = catalog_fold (catalog_fold sigs entries1) entries2.
Proof. apply foldl_app. Qed.

End catalog_add_facts.

Section catalog_load.
Context `{Collaborators}.

Lemma include_entry_catalog_add (entry : Entry.t) (self : MagicParser) :
  signatures (include_entry entry self)
  = catalog_add (Entry.offset entry) (Entry.condition entry) (signatures self).
Proof. apply include_entry_signatures. Qed.

Lemma omap_included_cons (line : string) (lines : list string) :
  omap included (line :: lines)
  = match included line with
    | Some entry => entry :: omap included lines
    | None => omap included lines
    end.
Proof. done. Qed.

(** The loop folds the included entries of the lines it gets through into
    the catalog and counts them. *)
Lemma parse_file_loop_catalog (lines : list string) (include : bool)
    (line_count : Z) (self : MagicParser) :
  ∃ done,
    done `prefix_of` lines ∧
    ((parse_file_loop lines include line_count self).2 = None → done = lines) ∧
    signatures (parse_file_loop lines include line_count self).1.1
      = catalog_fold (signatures self) (omap included done) ∧
    signature_count (parse_file_loop lines include line_count self).1.1
      = (signature_count self + Z.of_nat (length (omap included done)))%Z.
Proof.
  revert include line_count self.
  induction lines as [|line lines IH]; intros include line_count self.
  - exists []. simpl. split_and!; [done..|lia].
  - simpl.
    destruct (_parse_line line) as [[entry|]|e] eqn:Hline.
    + destruct (filter_include (Entry.description entry)) eqn:Hfilter.
      * assert (included line = Some entry) as Hinc
          by (unfold included; by rewrite Hline, Hfilter).
        destruct (IH true (line_count + 1)%Z
                    (fd_write (include_entry entry self) line))
          as (done & Hpre & Hall & Hsigs & Hcount).
        exists (line :: done). rewrite omap_included_cons, Hinc. split_and!.
        -- by apply prefix_cons.
        -- intros Hnone. by rewrite Hall.
        -- rewrite Hsigs. simpl. by rewrite <- include_entry_catalog_add.
        -- rewrite Hcount. simpl. lia.
      * assert (included line = None) as Hinc
          by (unfold included; by rewrite Hline, Hfilter).
        destruct (IH false (line_count + 1)%Z self)
          as (done & Hpre & Hall & Hsigs & Hcount).
        exists (line :: done). rewrite omap_included_cons, Hinc. split_and!;
          [by apply prefix_cons | intros Hnone; by rewrite Hall | done..].
    + assert (included line = None) as Hinc
        by (unfold included; by rewrite Hline).
      destruct (IH include (line_count + 1)%Z
                  (if include then fd_write self line else self))
        as (done & Hpre & Hall & Hsigs & Hcount).
      exists (line :: done). rewrite omap_included_cons, Hinc. split_and!.
      * by apply prefix_cons.
      * intros Hnone. by rewrite Hall.
      * rewrite Hsigs. by destruct include.
      * rewrite Hcount. by destruct include.
    + exists []. simpl. split_and!; [apply prefix_nil|done|done|lia].
Qed.

(** The same for a whole file, whatever the outcome: the file contributes
    the included entries of the lines read before the load ended. *)
Lemma parse_file_catalog (fs : filesystem) (file_name : string)
    (self : MagicParser) :
  ∃ done,
    (∀ line, line ∈ done →
             ∃ lines, fs !! file_name = Some lines ∧ line ∈ lines) ∧
    ((parse_file fs file_name self).1 = Return () →
     fs !! file_name = Some done) ∧
    signatures (parse_file fs file_name self).2
      = catalog_fold (signatures self) (omap included done) ∧
    signature_count (parse_file fs file_name self).2
      = (signature_count self + Z.of_nat (length (omap included done)))%Z.
Proof.
  unfold parse_file. destruct (fs !! file_name) as [lines|] eqn:Hfile.
  - destruct (parse_file_loop_catalog lines false 0 self)
      as (done & Hpre & Hall & Hsigs & Hcount).
    exists done.
    destruct (parse_file_loop lines false 0 self) as [[self' n] [e|]];
      simpl in *.
    + split_and!; [|done..]. intros line Hline. exists lines. split; [done|].
      destruct Hpre as [k ->]. apply elem_of_app. by left.
    + pose proof (Hall eq_refl) as ->. split_and!; [|done..].
      intros line Hline. eauto.
  - exists []. simpl. split_and!; [by intros ? ?%elem_of_nil|done|done|lia].
Qed.

End catalog_load.

Section catalog_theorems.
Context `{Collaborators}.

(** A whole [parse_files] run folds into the catalog the included entries
    of lines of the listed files, and counts them. *)
Lemma parse_files_catalog (fs : filesystem) (files : list string)
    (self : MagicParser) :
  ∃ entries,
    signatures (parse_files fs files self).2
      = catalog_fold (signatures self) entries ∧
    signature_count (parse_files fs files self).2
      = (signature_count self + Z.of_nat (length entries))%Z ∧
    ∀ entry, entry ∈ entries →
      ∃ fname lines line,
        fname ∈ files ∧ fs !! fname = Some lines ∧ line ∈ lines ∧
        included line = Some entry.
Proof.
  revert self. induction files as [|fname files IH]; intros self.
  - exists []. simpl. split_and!; [done|lia|by intros ? ?%elem_of_nil].
  - simpl. destruct (exists_ fs fname).
    + destruct (parse_file_catalog fs fname self)
        as (done & Hdone & _ & Hsigs & Hcount).
      assert (∀ entry, entry ∈ omap included done →
                ∃ fname' lines line,
                  fname' ∈ fname :: files ∧ fs !! fname' = Some lines ∧
                  line ∈ lines ∧ included line = Some entry) as Hfrom.
      { intros entry (line & Hline & Hinc)%list_elem_of_omap.
        destruct (Hdone line Hline) as (lines & Hfile & Hin).
        exists fname, lines, line. split_and!; [by apply elem_of_cons; left|done..]. }
      destruct (parse_file fs fname self) as [[[]|e] self1]; simpl in *.
      * destruct (IH self1) as (entries & Hsigs' & Hcount' & Hfrom').
        exists (omap included done ++ entries). split_and!.
        -- by rewrite Hsigs', Hsigs, catalog_fold_app.
        -- rewrite Hcount', Hcount, List.length_app. lia.
        -- intros entry [?|Hin]%elem_of_app; [by apply Hfrom|].
           destruct (Hfrom' entry Hin) as (f & lines & line & ? & ? & ? & ?).
           exists f, lines, line. split_and!; [by apply elem_of_cons; right|done..].
      * exists (omap included done). split_and!; done.
    + destruct (IH (warn self fname)) as (entries & Hsigs & Hcount & Hfrom).
      exists entries. split_and!; [done..|].
      intros entry Hin.
      destruct (Hfrom entry Hin) as (f & lines & line & ? & ? & ? & ?).
      exists f, lines, line. split_and!; [by apply elem_of_cons; right|done..].
Qed.

Lemma parse_catalog (fs : filesystem) (files : list string)
    (self : MagicParser) :
  signatures (parse fs (FileList files) self).2
    = signatures (parse_files fs files self).2 ∧
  signature_count (parse fs (FileList files) self).2
    = signature_count (parse_files fs files self).2.
Proof.
  rewrite parse_of_parse_files.
  by destruct (parse_files fs files self) as [[[]|e] self'].
Qed.

(** X8: a load never prunes the catalog.  Whatever [parse] does, returning
    or raising, every offset that had a list of conditions still has one,
    with the old list as a prefix of the new, and the count of included
    entries has not gone down. *)
Theorem catalog_only_grows (fs : filesystem) (files : list string)
    (self : MagicParser) (offset : Z) (conds : list string) :
  signatures self !! offset = Some conds →
  (∃ conds',
     signatures (parse fs (FileList files) self).2 !! offset = Some conds' ∧
     conds `prefix_of` conds') ∧
  (signature_count self ≤ signature_count (parse fs (FileList files) self).2)%Z.
Proof.
  intros Hconds. destruct (parse_catalog fs files self) as [-> ->].
  destruct (parse_files_catalog fs files self) as (entries & -> & -> & _).
  split; [by apply catalog_fold_grows | lia].
Qed.

(** X9: the per-offset lists stay free of duplicates across a load. *)
Theorem catalog_stays_duplicate_free (fs : filesystem) (files : list string)
    (self : MagicParser) :
  map_Forall (λ _ conds, NoDup conds) (signatures self) →
  map_Forall (λ _ conds, NoDup conds)
    (signatures (parse fs (FileList files) self).2).
Proof.
  intros Hnodup. destruct (parse_catalog fs files self) as [-> _].
  destruct (parse_files_catalog fs files self) as (entries & -> & _ & _).
  by apply catalog_fold_NoDup.
Qed.

(** X10: a condition enters the catalog only through a line that parses and
    that the filter includes.  What the catalog lists after [parse] was
    listed before, or is the condition of such a line of a listed file, at
    that entry's offset; an excluded entry never gets in. *)
Theorem catalog_holds_only_included (fs : filesystem) (files : list string)
    (self : MagicParser) (offset : Z) (sig : string) :
  in_catalog (signatures (parse fs (FileList files) self).2) offset sig →
  in_catalog (signatures self) offset sig ∨
  ∃ fname lines line entry,
    fname ∈ files ∧ fs !! fname = Some lines ∧ line ∈ lines ∧
    _parse_line line = Return (Some entry) ∧
    filter_include (Entry.description entry) = true ∧
    Entry.offset entry = offset ∧ Entry.condition entry = sig.
Proof.
  destruct (parse_catalog fs files self) as [-> _].
  destruct (parse_files_catalog fs files self) as (entries & -> & _ & Hfrom).
  intros [?|(entry & Hin & Hoff & Hcond)]%in_catalog_fold; [by left|right].
  destruct (Hfrom entry Hin) as (fname & lines & line & ? & ? & ? & Hinc).
  exists fname, lines, line, entry. unfold included in Hinc.
  destruct (_parse_line line) as [[entry'|]|]; [|done..].
  destruct (filter_include (Entry.description entry')) eqn:Hfilter; [|done].
  injection Hinc as ->. split_and!; done.
Qed.

(** X11: after a [parse_file] that returns, every line of the file that
    parses and is included has its condition in the catalog at its offset
    and its pattern in the compiled set; if the condition is neither empty
    nor the wildcard byte, its leftmost occurrence in a buffer is a
    candidate whenever it lies below the bound. *)
Theorem included_entry_is_found (fs : filesystem) (file_name : string)
    (lines : list string) (line : string) (entry : Entry.t)
    (self self' : MagicParser) :
  parse_file fs file_name self = (Return (), self') →
  fs !! file_name = Some lines → line ∈ lines →
  _parse_line line = Return (Some entry) →
  filter_include (Entry.description entry) = true →
  in_catalog (signatures self') (Entry.offset entry) (Entry.condition entry) ∧
  (∃ compiled, signature_set self' = Some compiled ∧
               compile_sig (Entry.condition entry) ∈ compiled) ∧
  ∀ data end_ p,
    Entry.condition entry ≠ "" → Entry.condition entry ≠ WILDCARD →
    occurs_at (Entry.condition entry) data p →
    (∀ p', occurs_at (Entry.condition entry) data p' → p ≤ p')%Z →
    (p < end_)%Z →
    ∃ offsets, find_signature_candidates self' data end_ = Return offsets ∧
               p ∈ offsets.
Proof.
  intros Hload Hfile Hline Hparse Hfilter.
  destruct (parse_file_catalog fs file_name self)
    as (done & _ & Hdone & Hsigs & _).
  rewrite Hload in Hdone, Hsigs. simpl in Hdone, Hsigs.
  specialize (Hdone eq_refl). rewrite Hfile in Hdone. injection Hdone as <-.
  assert (in_catalog (signatures self') (Entry.offset entry)
            (Entry.condition entry)) as Hin.
  { rewrite Hsigs. apply in_catalog_fold. right. exists entry.
    split; [|done]. apply list_elem_of_omap. exists line. split; [done|].
    unfold included. by rewrite Hparse, Hfilter. }
  pose proof (parse_file_up_to_date _ _ _ _ Hload) as Hcurrent.
  assert (compile_sig (Entry.condition entry) ∈ (build_signature_set self').1)
    as Hcompiled.
  { destruct Hin as (conds & ? & ?).
    apply elem_of_build_signature_set. eauto 6. }
  split_and!; [done | by eauto |].
  intros data end_ p Hne Hnw Hocc Hleft Hend.
  rewrite up_to_date_scan by done. eexists. split; [done|].
  apply elem_of_candidates. split; [done|].
  exists (compile_sig (Entry.condition entry)). split; [done|].
  rewrite compile_sig_Literal by done.
  by apply finditer_literal_complete.
Qed.

(** X12: [signature_count] counts the included entries, repeats and all:
    a [parse_file] that returns adds the number of lines of the file that
    parse and are included. *)
Theorem signature_count_counts_included (fs : filesystem)
    (file_name : string) (lines : list string) (self self' : MagicParser) :
  parse_file fs file_name self = (Return (), self') →
  fs !! file_name = Some lines →
  signature_count self'
  = (signature_count self + Z.of_nat (length (omap included lines)))%Z.
Proof.
  intros Hload Hfile.
  destruct (parse_file_catalog fs file_name self)
    as (done & _ & Hdone & _ & Hcount).
  rewrite Hload in Hdone, Hcount. simpl in Hdone, Hcount.
  specialize (Hdone eq_refl). rewrite Hfile in Hdone. by injection Hdone as <-.
Qed.



End catalog_theorems.

(** * The filtered output stream *)

Section tempfile_facts.

Lemma str_take_drop (n : nat) (s : string) : str_take n s +:+ str_drop n s = s.
Proof.
  revert n. induction s as [|c s IH]; intros [|n]; try done.
  simpl. by rewrite app_cons, IH.
Qed.

Lemma str_take_length (n : nat) (s : string) :
  n ≤ String.length s → String.length (str_take n s) = n.
Proof.
  revert n. induction s as [|c s IH]; intros [|n] Hn; simpl in *; try done; [lia|].
  rewrite IH; [done|lia].
Qed.

Lemma str_take_app (s t : string) (n : nat) :
  str_take (String.length s + n) (s +:+ t) = s +:+ str_take n t.
Proof. induction s as [|c s IH]; [done|]. simpl. by rewrite !app_cons, IH. Qed.

Lemma str_drop_app (s t : string) (n : nat) :
  str_drop (String.length s + n) (s +:+ t) = str_drop n t.
Proof. induction s as [|c s IH]; [done|]. simpl. by rewrite IH. Qed.

Lemma str_take_0 (s : string) : str_take 0 s = "".
Proof. by destruct s. Qed.

Lemma str_drop_drop (n m : nat) (s : string) :
  str_drop n (str_drop m s) = str_drop (m + n) s.
Proof.
  revert m. induction s as [|c s IH]; intros m.
  - by rewrite !str_drop_nil.
  - destruct m as [|m]; [done|]. simpl. apply IH.
Qed.

Lemma write_empty (fd : tempfile) : write fd "" = fd.
Proof.
  destruct fd as [nm c p]. unfold write. simpl.
  change ("" +:+ ?s) with s. by rewrite !Nat.add_0_r, str_take_drop.
Qed.

(** Two writes in a row are one write of both pieces. *)
Lemma write_write (fd : tempfile) (a b : string) :
  position_ok fd →
  write (write fd a) b = write fd (a +:+ b) ∧ position_ok (write fd a).
Proof.
  destruct fd as [nm c p]. unfold position_ok, write. simpl. intros Hp.
  pose proof (str_take_length p c Hp) as Htake.
  split.
  - f_equal; [|rewrite length_app; lia].
    set (T := str_take p c) in *. set (R := str_drop (p + String.length a) c).
    assert (str_take (p + String.length a) (T +:+ a +:+ R) = T +:+ a) as ->.
    { rewrite <- Htake, str_take_app.
      rewrite <- (Nat.add_0_r (String.length a)), str_take_app, str_take_0.
      by rewrite app_empty_r. }
    assert (str_drop (p + String.length a + String.length b) (T +:+ a +:+ R)
            = str_drop (p + String.length (a +:+ b)) c) as ->.
    { rewrite <- Htake at 1.
      rewrite <- Nat.add_assoc, str_drop_app, str_drop_app.
      unfold R. by rewrite str_drop_drop, length_app, Nat.add_assoc. }
    by rewrite !app_assoc.
  - rewrite !length_app, Htake. lia.
Qed.

End tempfile_facts.

Section output_stream.
Context `{Collaborators}.

Lemma parse_file_loop_output (lines : list string) (include : bool)
    (line_count : Z) (self : MagicParser) :
  position_ok (fd self) →
  ∃ written,
    written `sublist_of` lines ∧
    fd (parse_file_loop lines include line_count self).1.1
      = write (fd self) (concat_lines written) ∧
    position_ok (fd (parse_file_loop lines include line_count self).1.1).
Proof.
  revert include line_count self.
  induction lines as [|line lines IH]; intros include line_count self Hpos.
  - exists []. simpl. by rewrite write_empty.
  - assert (∀ include' self1,
              fd self1 = fd self →
              ∃ written,
                written `sublist_of` line :: lines ∧
                fd (parse_file_loop lines include' (line_count + 1)
                      (if include' then fd_write self1 line else self1)).1.1
                  = write (fd self) (concat_lines written) ∧
                position_ok
                  (fd (parse_file_loop lines include' (line_count + 1)
                         (if include' then fd_write self1 line else self1)).1.1))
      as Hstep.
    { intros [] self1 Hfd.
      - destruct (write_write (fd self) line "" Hpos) as [_ Hpos1].
        destruct (IH true (line_count + 1)%Z (fd_write self1 line))
          as (written & Hsub & Hout & Hpos'); [simpl; by rewrite Hfd|].
        exists (line :: written). split_and!; [by constructor| |done].
        rewrite Hout. simpl. rewrite Hfd.
        by apply write_write.
      - destruct (IH false (line_count + 1)%Z self1)
          as (written & Hsub & Hout & Hpos'); [by rewrite Hfd|].
        exists written. split_and!; [by constructor| |done].
        by rewrite Hout, Hfd. }
    simpl. destruct (_parse_line line) as [[entry|]|e].
    + destruct (filter_include (Entry.description entry)).
      * by apply (Hstep true (include_entry entry self)).
      * by apply (Hstep false self).
    + by apply (Hstep include self).
    + exists []. simpl. split_and!; [apply sublist_nil_l|by rewrite write_empty|done].
Qed.

(** X14: whatever [parse_file] writes goes to the temporary file at its
    current position, and it is the bytes of some of the file's lines, whole
    and in their order; nothing else is written and no line is altered. *)
Theorem output_is_lines_of_the_file (fs : filesystem) (file_name : string)
    (lines : list string) (self : MagicParser) :
  fs !! file_name = Some lines →
  position_ok (fd self) →
  ∃ written,
    written `sublist_of` lines ∧
    fd (parse_file fs file_name self).2
      = write (fd self) (concat_lines written) ∧
    position_ok (fd (parse_file fs file_name self).2).
Proof.
  intros Hfile Hpos. unfold parse_file. rewrite Hfile.
  destruct (parse_file_loop_output lines false 0 self Hpos)
    as (written & Hsub & Hout & Hpos').
  exists written.
  by destruct (parse_file_loop lines false 0 self) as [[self' n] [e|]].
Qed.

Lemma parse_file_loop_nothing (lines : list string) (line_count : Z)
    (self : MagicParser) :
  (∀ line, line ∈ lines → included line = None) →
  (parse_file_loop lines false line_count self).1.1 = self.
Proof.
  revert line_count. induction lines as [|line lines IH];
    intros line_count Hnone; [done|].
  simpl. pose proof (Hnone line ltac:(by apply elem_of_cons; left)) as Hline.
  unfold included in Hline.
  assert (∀ n, (parse_file_loop lines false n self).1.1 = self) as Hrest.
  { intros n. apply IH. intros l Hl. apply Hnone. by apply elem_of_cons; right. }
  destruct (_parse_line line) as [[entry|]|e]; [| |done].
  - destruct (filter_include (Entry.description entry)); [done|]. apply Hrest.
  - apply Hrest.
Qed.

(** X15: a file none of whose lines is included leaves no trace: the
    catalog, the count and the temporary file are as they were, whether
    the load returns or raises. *)
Theorem nothing_included_nothing_kept (fs : filesystem) (file_name : string)
    (lines : list string) (self : MagicParser) :
  fs !! file_name = Some lines →
  (∀ line, line ∈ lines → included line = None) →
  signatures (parse_file fs file_name self).2 = signatures self ∧
  signature_count (parse_file fs file_name self).2 = signature_count self ∧
  fd (parse_file fs file_name self).2 = fd self.
Proof.
  intros Hfile Hnone. unfold parse_file. rewrite Hfile.
  pose proof (parse_file_loop_nothing lines 0 self Hnone) as Hsame.
  destruct (parse_file_loop lines false 0 self) as [[self' n] [e|]];
    simpl in *; by subst self'.
Qed.

Lemma parse_file_loop_keep_all (lines : list string) (line_count : Z)
    (self : MagicParser) :
  (∀ description, filter_include description = true) →
  position_ok (fd self) →
  (parse_file_loop lines true line_count self).2 = None →
  fd (parse_file_loop lines true line_count self).1.1
  = write (fd self) (concat_lines lines).
Proof.
  intros Hall. revert line_count self.
  induction lines as [|line lines IH]; intros line_count self Hpos Hok.
  - simpl. by rewrite write_empty.
  - simpl in *.
    assert (∀ self1, fd self1 = fd self →
              (parse_file_loop lines true (line_count + 1)
                 (fd_write self1 line)).2 = None →
              fd (parse_file_loop lines true (line_count + 1)
                    (fd_write self1 line)).1.1
              = write (fd self) (line +:+ concat_lines lines)) as Hstep.
    { intros self1 Hfd Hok1.
      destruct (write_write (fd self) line (concat_lines lines) Hpos)
        as [<- Hpos1].
      rewrite IH; [by simpl; rewrite Hfd| by simpl; rewrite Hfd |done]. }
    destruct (_parse_line line) as [[entry|]|e]; [| |done].
    + rewrite Hall in Hok |- *. by apply (Hstep (include_entry entry self)).
    + by apply (Hstep self).
Qed.

(** X16: with a filter that includes every description, a load that
    returns copies the file from its first signature line on, byte for
    byte; the lines before the first line that starts with a digit are
    dropped. *)
Theorem include_all_copies_from_first_signature (fs : filesystem)
    (file_name : string) (before rest : list string) (first : string)
    (self self' : MagicParser) :
  (∀ description, filter_include description = true) →
  fs !! file_name = Some (before ++ first :: rest) →
  Forall (λ line, not_digit_led line = true) before →
  not_digit_led first = false →
  position_ok (fd self) →
  parse_file fs file_name self = (Return (), self') →
  fd self' = write (fd self) (concat_lines (first :: rest)).
Proof.
  intros Hall Hfile Hbefore Hfirst Hpos Hload.
  unfold parse_file in Hload. rewrite Hfile in Hload.
  assert (∀ n,
            (parse_file_loop (before ++ first :: rest) false n self).2 = None →
            fd (parse_file_loop (before ++ first :: rest) false n self).1.1
            = write (fd self) (concat_lines (first :: rest))) as Hloop.
  { clear Hfile Hload.
    induction Hbefore as [|line before Hline _ IH]; intros n Hok.
    - simpl in *.
      destruct (_parse_line first) as [r|e] eqn:Hparse; [|done].
      destruct (parse_line_digit _ _ Hfirst Hparse) as [entry ->].
      rewrite Hall in Hok |- *.
      destruct (write_write (fd self) first (concat_lines rest) Hpos)
        as [<- Hpos1].
      by rewrite parse_file_loop_keep_all.
    - simpl in *. rewrite (parse_line_not_digit _ Hline) in Hok |- *.
      by apply IH. }
  specialize (Hloop 0%Z).
  destruct (parse_file_loop (before ++ first :: rest) false 0 self)
    as [[self1 n] [e|]]; [done|].
  injection Hload as <-. by apply Hloop.
Qed.

Lemma parse_files_fd (fs : filesystem) (files : list string)
    (self : MagicParser) :
  name (fd (parse_files fs files self).2) = name (fd self).
Proof.
  revert self. induction files as [|fname files IH]; intros self; [done|].
  simpl. destruct (exists_ fs fname); [|by rewrite IH].
  assert (name (fd (parse_file fs fname self).2) = name (fd self)) as Hname.
  { unfold parse_file. destruct (fs !! fname) as [lines|]; [|done].
    pose proof (parse_file_loop_frame lines false 0 self) as (_ & _ & Hname).
    by destruct (parse_file_loop lines false 0 self) as [[self' n] [e|]]. }
  destruct (parse_file fs fname self) as [[[]|e] self1]; [|done].
  by rewrite IH.
Qed.

(** X17: [parse] hands back the name of the parser's own temporary file
    and leaves the file rewound.  So a load run after it does not append:
    what it writes replaces the bytes at the start of the earlier output
    and whatever of that output is longer stays behind it. *)
Theorem parse_rewinds_the_output (fs : filesystem) (files : list string)
    (handle : string) (self self1 : MagicParser) :
  parse fs (FileList files) self = (Return handle, self1) →
  handle = name (fd self) ∧
  position (fd self1) = 0 ∧
  ∀ file_name lines,
    fs !! file_name = Some lines →
    ∃ written,
      written `sublist_of` lines ∧
      content (fd (parse_file fs file_name self1).2)
      = concat_lines written
          +:+ str_drop (String.length (concat_lines written))
                (content (fd self1)).
Proof.
  intros Hparse. rewrite parse_of_parse_files in Hparse.
  pose proof (parse_files_fd fs files self) as Hname.
  destruct (parse_files fs files self) as [[[]|e] self'] eqn:Hfiles; [|done].
  injection Hparse as <- <-. simpl in *. split_and!; [done..|].
  intros file_name lines Hfile. unfold parse_file. rewrite Hfile.
  destruct (parse_file_loop_output lines false 0
              (Parser (signatures self') (signature_set self')
                 (signature_count self') (seek0 (fd self')) (stdout self')))
    as (written & Hsub & Hout & _).
  { unfold position_ok. simpl. lia. }
  exists written. split; [done|].
  destruct (parse_file_loop lines false 0 _) as [[self2 n] [e|]];
    simpl in *; by rewrite Hout.
Qed.

End output_stream.

(** * [split] *)

Section split_facts.

Lemma split_sep_go_cons (sep : string) (skip : nat) (cur : string)
    (c : ascii) (rest : string) :
  split_sep_go sep skip cur (String c rest) =
  match skip with
  | S k => split_sep_go sep k cur rest
  | O =>
      if String.prefix sep (String c rest)
      then cur :: split_sep_go sep (String.length sep - 1) "" rest
      else split_sep_go sep 0 (cur +:+ String c "") rest
  end.
Proof. done. Qed.

Lemma split_sep_go_skip (sep : string) (skip : nat) (cur s : string) :
  split_sep_go sep skip cur s = split_sep_go sep 0 cur (str_drop skip s).
Proof.
  revert skip. induction s as [|c s IH]; intros skip.
  - by rewrite str_drop_nil.
  - destruct skip as [|k]; [done|]. simpl. apply IH.
Qed.

Lemma split_sep_go_nonempty (sep : string) (skip : nat) (cur s : string) :
  split_sep_go sep skip cur s ≠ [].
Proof.
  revert skip cur. induction s as [|c s IH]; intros skip cur; [done|].
  rewrite split_sep_go_cons. destruct skip; [|apply IH].
  destruct (String.prefix sep (String c s)); [done|apply IH].
Qed.

Lemma join_cons (sep p : string) (ps : list string) :
  ps ≠ [] → Py.join sep (p :: ps) = p +:+ sep +:+ Py.join sep ps.
Proof. by destruct ps. Qed.

(** A string that starts with [sep] is [sep] followed by the rest. *)
Lemma prefix_split (sep s : string) :
  String.prefix sep s = true → s = sep +:+ str_drop (String.length sep) s.
Proof.
  revert s. induction sep as [|c sep IH]; intros s Hpre; [by destruct s|].
  destruct s as [|d s]; [done|]. simpl in Hpre.
  destruct (ascii_dec c d) as [->|]; [|done].
  rewrite app_cons. simpl. f_equal. by apply IH.
Qed.

Lemma split_sep_go_join (sep cur s : string) :
  sep ≠ "" →
  Py.join sep (split_sep_go sep 0 cur s) = cur +:+ s.
Proof.
  intros Hsep. remember (String.length s) as n eqn:Hn.
  revert cur s Hn. induction (lt_wf n) as [n _ IH]. intros cur s ->.
  destruct s as [|c s]; [simpl; by rewrite app_empty_r|].
  rewrite split_sep_go_cons. destruct (String.prefix sep (String c s)) eqn:Hpre.
  - rewrite join_cons by apply split_sep_go_nonempty.
    rewrite split_sep_go_skip.
    destruct sep as [|d sep]; [done|].
    pose proof (prefix_split _ _ Hpre) as Hs.
    simpl in Hs. injection Hs as -> Hs.
    replace (String.length (String d sep) - 1) with (String.length sep)
      by (simpl; lia).
    assert (String.length (str_drop (String.length sep) s)
            < String.length (String d s)) as Hlt.
    { pose proof (f_equal String.length Hs) as Hlen.
      rewrite length_app in Hlen. simpl. lia. }
    rewrite (IH _ Hlt "" _ eq_refl).
    change ("" +:+ ?x) with x. rewrite app_cons. by rewrite <- Hs.
  - rewrite (IH (String.length s) ltac:(simpl; lia) _ s eq_refl).
    by rewrite app_assoc.
Qed.

(** X18: joining what [split] returns with the separator between the
    pieces gives the data back, and [split] always returns at least one
    piece. *)
Theorem split_join (data : string) :
  Py.join RESULT_SEPERATOR (split data) = data ∧ split data ≠ [].
Proof.
  split; [|apply split_sep_go_nonempty].
  unfold split, split_sep. by rewrite split_sep_go_join.
Qed.

Lemma split_sep_go_count (sep : string) (skip : nat) (pos : Z)
    (cur s : string) :
  length (split_sep_go sep skip cur s)
  = S (length (finditer_go (Literal sep) skip pos s)) ∨ sep = "".
Proof.
  destruct (decide (sep = "")) as [|Hsep]; [by right|left].
  revert skip pos cur. induction s as [|c s IH]; intros skip pos cur.
  - simpl. by destruct sep.
  - rewrite finditer_go_cons, split_sep_go_cons.
    destruct skip as [|k]; [|apply IH].
    destruct (String.prefix sep (String c s)); simpl; [f_equal|]; apply IH.
Qed.

(** X19: [split] returns one piece more than the separator has
    non-overlapping occurrences in the data, as the scanner would count
    them. *)
Theorem split_count (data : string) :
  length (split data)
  = S (length (finditer (Literal RESULT_SEPERATOR) data)).
Proof.
  unfold split, split_sep, finditer.
  by destruct (split_sep_go_count RESULT_SEPERATOR 0 0 "" data).
Qed.

End split_facts.

(** * [file_from_string] *)

Section format_facts.

Lemma all_chars_app (test : ascii → bool) (s t : string) :
  all_chars test (s +:+ t) = all_chars test s && all_chars test t.
Proof.
  induction s as [|c s IH]; [done|].
  rewrite app_cons. simpl. by rewrite IH, andb_assoc.
Qed.

Lemma all_chars_impl (test1 test2 : ascii → bool) (s : string) :
  (∀ c, test1 c = true → test2 c = true) →
  all_chars test1 s = true → all_chars test2 s = true.
Proof.
  intros Himpl. induction s as [|c s IH]; [done|]. simpl.
  intros [Hc Hs]%andb_true_iff. by rewrite (Himpl c Hc), IH.
Qed.

Lemma string_of_uint_digits (d : Decimal.uint) :
  all_chars is_digit (DecimalString.NilEmpty.string_of_uint d) = true.
Proof. induction d; simpl; by rewrite ?IHd. Qed.

(** ["%d"] of a non-negative integer is a non-empty string of digits. *)
Lemma format_d_digits (n : Z) :
  (0 ≤ n)%Z →
  format_d n ≠ "" ∧ all_chars is_digit (format_d n) = true.
Proof.
  intros Hn. unfold format_d.
  destruct n as [|p|p]; [done| |lia]. simpl.
  pose proof (string_of_uint_digits (Pos.to_uint p)) as Hdigits.
  unfold DecimalString.NilZero.string_of_uint.
  destruct (Pos.to_uint p); try done; split; (done || exact Hdigits).
Qed.

(** ["%d"] of a negative integer starts with the minus sign. *)
Lemma format_d_negative (n : Z) :
  (n < 0)%Z → ∃ digits, format_d n = String "-" digits.
Proof. intros Hn. destruct n as [|p|p]; [lia..|]. unfold format_d. simpl. eauto. Qed.

End format_facts.

Section tokens.

Lemma replace_go_unfold (old new : string) (c : ascii) (rest : string) :
  Py.replace_go old new 0 (String c rest)
  = if String.eqb old "" then new +:+ String c (Py.replace_go old new 0 rest)
    else if String.prefix old (String c rest)
         then new +:+ Py.replace_go old new (String.length old - 1) rest
         else String c (Py.replace_go old new 0 rest).
Proof. done. Qed.

Lemma replace_go_cons (old new : string) (c : ascii) (rest : string) :
  old ≠ "" → String.prefix old (String c rest) = false →
  Py.replace_go old new 0 (String c rest)
  = String c (Py.replace_go old new 0 rest).
Proof.
  intros Hold Hpre. rewrite replace_go_unfold, Hpre.
  by destruct (String.eqb_spec old "").
Qed.

Lemma prefix_cons_eq (c d : ascii) (s t : string) :
  String.prefix (String c s) (String d t)
  = if ascii_dec c d then String.prefix s t else false.
Proof. done. Qed.

Lemma prefix_escaped_space (c : ascii) (s : string) :
  (∀ d s', s = String d s' → d ≠ " "%char) →
  String.prefix "\ " (String c s) = false.
Proof.
  intros Hhead. rewrite prefix_cons_eq. destruct (ascii_dec "\" c); [|done].
  destruct s as [|d s']; [done|]. rewrite prefix_cons_eq.
  destruct (ascii_dec " " d) as [<-|]; [|done].
  by destruct (Hhead " "%char s' eq_refl).
Qed.

Lemma prefix_not_backslash (c : ascii) (s : string) :
  c ≠ "\"%char → String.prefix "\ " (String c s) = false.
Proof.
  intros Hc. rewrite prefix_cons_eq. by destruct (ascii_dec "\" c) as [<-|].
Qed.

(** A stretch of text without a space, closed by a tab, goes through the
    replacement of escaped spaces untouched. *)
Lemma replace_no_space (a b : string) :
  all_chars (λ c, negb (Ascii.eqb c " ")) a = true →
  Py.replace (a +:+ String "009" b) "\ " "\x20"
  = a +:+ String "009" (Py.replace b "\ " "\x20").
Proof.
  unfold Py.replace. induction a as [|c a IH]; intros Ha.
  - change ("" +:+ ?s) with s. rewrite replace_go_cons; [done..|].
    by apply prefix_not_backslash.
  - simpl in Ha. apply andb_true_iff in Ha as [Hc Ha].
    rewrite !app_cons, replace_go_cons, IH; [done..|].
    apply prefix_escaped_space. intros d s' Hs.
    destruct a as [|e a'].
    + change ("" +:+ ?s) with s in Hs. by injection Hs as <- _.
    + rewrite app_cons in Hs. injection Hs as <- _.
      simpl in Ha. apply andb_true_iff in Ha as [He _].
      intros ->. done.
Qed.

(** A stretch of text without white space, closed by a white-space
    character, is one token. *)
Lemma split_go_token (tok a : string) (w : ascii) (b : string) :
  all_chars not_space a = true → Py.isspace w = true →
  Py.split_go tok (a +:+ String w b)
  = (if String.eqb (tok +:+ a) "" then [] else [tok +:+ a])
      ++ Py.split_go "" b.
Proof.
  revert tok. induction a as [|c a IH]; intros tok Ha Hw.
  - change ("" +:+ ?s) with s. rewrite app_empty_r. simpl. by rewrite Hw.
  - simpl in Ha. apply andb_true_iff in Ha as [Hc Ha].
    rewrite app_cons. simpl Py.split_go.
    unfold not_space in Hc. apply negb_true_iff in Hc. rewrite Hc.
    rewrite IH by done. by rewrite app_assoc.
Qed.

Lemma split_go_token_nonempty (a : string) (w : ascii) (b : string) :
  a ≠ "" → all_chars not_space a = true → Py.isspace w = true →
  Py.split_go "" (a +:+ String w b) = a :: Py.split_go "" b.
Proof.
  intros Hne Ha Hw. rewrite split_go_token by done.
  change ("" +:+ ?s) with s. by destruct (String.eqb_spec a "").
Qed.

Lemma digit_not_space (c : ascii) : is_digit c = true → not_space c = true.
Proof.
  unfold is_digit, not_space, Py.isspace. intros Hd%bool_decide_eq_true.
  apply negb_true_iff, bool_decide_eq_false.
  rewrite !elem_of_cons, elem_of_nil. lia.
Qed.

Lemma not_space_not_blank (c : ascii) :
  not_space c = true → negb (Ascii.eqb c " ") = true.
Proof.
  unfold not_space. destruct (Ascii.eqb_spec c " ") as [->|]; [|done].
  by vm_compute.
Qed.

(** The tokens of the line [file_from_string] writes, for an offset that is
    not negative and a signature without white space: the offset, the word
    [string], the signature unless it is empty, and the words of the display
    name. *)
Lemma line_parts_magic_string (offset : Z)
    (signature_string display_name : string) :
  (0 ≤ offset)%Z →
  all_chars not_space signature_string = true →
  line_parts (MAGIC_STRING_FORMAT offset signature_string display_name)
  = format_d offset :: "string"
      :: (if String.eqb signature_string "" then [] else [signature_string])
      ++ Py.split (Py.replace (display_name +:+ String "010" "") "\ " "\x20").
Proof.
  intros Hoff Hsig.
  destruct (format_d_digits offset Hoff) as [Hne Hdigits].
  pose proof (all_chars_impl _ _ _ digit_not_space Hdigits) as Hdec.
  unfold line_parts, bytes2str, MAGIC_STRING_FORMAT.
  set (rest := display_name +:+ String "010" "").
  assert (format_d offset +:+ String "009" "string"
            +:+ String "009" signature_string
            +:+ String "009" display_name +:+ String "010" ""
          = (format_d offset +:+ String "009" "string"
               +:+ String "009" signature_string)
              +:+ String "009" rest) as ->.
  { by rewrite !app_assoc. }
  rewrite replace_no_space.
  2:{ rewrite !all_chars_app. simpl.
      rewrite (all_chars_impl _ _ _ not_space_not_blank Hdec).
      by rewrite (all_chars_impl _ _ _ not_space_not_blank Hsig). }
  set (words := Py.replace rest "\ " "\x20").
  assert ((format_d offset +:+ String "009" "string"
             +:+ String "009" signature_string) +:+ String "009" words
          = format_d offset
              +:+ String "009"
                    ("string"
                       +:+ String "009"
                             (signature_string +:+ String "009" words))) as ->.
  { by rewrite !app_assoc. }
  unfold Py.split.
  rewrite split_go_token_nonempty by done.
  rewrite split_go_token_nonempty by done.
  rewrite split_go_token by done.
  by change ("" +:+ ?s) with s.
Qed.

End tokens.

Section file_from_string_facts.
Context `{Collaborators}.

Lemma file_from_string_content (raw_name signature_string : string)
    (offset : Z) (display_name : string) :
  file_from_string raw_name signature_string offset display_name
  = (raw_name,
     Tempfile raw_name
       (MAGIC_STRING_FORMAT offset signature_string display_name) 0).
Proof.
  unfold file_from_string, write, seek0. simpl.
  by rewrite str_drop_nil, app_empty_r.
Qed.

Lemma not_digit_led_format (offset : Z) (rest : string) :
  (0 ≤ offset)%Z → not_digit_led (format_d offset +:+ rest) = false.
Proof.
  intros Hoff. destruct (format_d_digits offset Hoff) as [Hne Hdigits].
  unfold not_digit_led, bytes2str.
  destruct (format_d offset) as [|c digits]; [done|].
  rewrite app_cons. simpl in Hdigits.
  apply andb_true_iff in Hdigits as [Hc%bool_decide_eq_true _].
  apply orb_false_iff. split; apply bool_decide_eq_false; lia.
Qed.

(** The line [file_from_string] formats, read by [_parse_line]. *)
Lemma parse_magic_string (signature_string : string) (offset : Z)
    (display_name decoded : string) :
  (0 ≤ offset)%Z →
  signature_string ≠ "" →
  all_chars not_space signature_string = true →
  str2int (format_d offset) = Some offset →
  string_decode signature_string = Some decoded →
  _parse_line (MAGIC_STRING_FORMAT offset signature_string display_name)
  = Return (Some (Entry.Build offset "string" decoded
                    (Py.join " "
                       (Py.split
                          (Py.replace (display_name +:+ String "010" "")
                             "\ " "\x20")))
                    (Py.len decoded))).
Proof.
  intros Hoff Hne Hsig Hint Hdec.
  unfold _parse_line.
  rewrite line_parts_magic_string by done.
  unfold MAGIC_STRING_FORMAT. rewrite not_digit_led_format by done.
  destruct (String.eqb_spec signature_string ""); [done|].
  unfold getitem, call_string_decode, call_str2int. simpl.
  rewrite Hdec. simpl. by rewrite Hint.
Qed.

(** X20: the line [file_from_string] writes parses back to the signature
    it was given.  For an offset that is not negative and a signature string
    that is not empty and has no white space, the temporary file holds that
    one line, rewound, and [_parse_line] reads it as a [string] entry at the
    offset whose condition is the decoded signature and whose description is
    the display name with its white space normalised. *)
Theorem file_from_string_parses_back (raw_name signature_string : string)
    (offset : Z) (display_name decoded : string) :
  (0 ≤ offset)%Z →
  signature_string ≠ "" →
  all_chars not_space signature_string = true →
  str2int (format_d offset) = Some offset →
  string_decode signature_string = Some decoded →
  let result :=
    file_from_string raw_name signature_string offset display_name in
  result.1 = raw_name ∧ name result.2 = raw_name ∧ position result.2 = 0 ∧
  _parse_line (content result.2)
  = Return (Some (Entry.Build offset "string" decoded
                    (Py.join " "
                       (Py.split
                          (Py.replace (display_name +:+ String "010" "")
                             "\ " "\x20")))
                    (Py.len decoded))).
Proof.
  intros Hoff Hne Hsig Hint Hdec. rewrite file_from_string_content. simpl.
  split_and!; [done..|]. by apply parse_magic_string.
Qed.

(** X21: a negative offset makes the written line start with a minus sign,
    so [_parse_line] takes it for a continuation line and the signature is
    silently ignored. *)
Theorem file_from_string_negative_offset (raw_name signature_string : string)
    (offset : Z) (display_name : string) :
  (offset < 0)%Z →
  _parse_line
    (content
       (file_from_string raw_name signature_string offset display_name).2)
  = Return None.
Proof.
  intros Hoff. rewrite file_from_string_content. simpl.
  apply parse_line_not_digit. unfold MAGIC_STRING_FORMAT.
  destruct (format_d_negative offset Hoff) as [digits ->].
  by rewrite app_cons.
Qed.

(** X22: an empty signature string does not give an empty condition: the
    line has two tabs in a row, which split as one separator, so the first
    word of the display name is read as the condition and the rest of the
    name as the description. *)
Theorem file_from_string_empty_signature (raw_name : string) (offset : Z)
    (display_name word decoded : string) (words : list string) :
  (0 ≤ offset)%Z →
  str2int (format_d offset) = Some offset →
  Py.split (Py.replace (display_name +:+ String "010" "") "\ " "\x20")
    = word :: words →
  string_decode word = Some decoded →
  _parse_line (content (file_from_string raw_name "" offset display_name).2)
  = Return (Some (Entry.Build offset "string" decoded (Py.join " " words)
                    (Py.len decoded))).
Proof.
  intros Hoff Hint Hwords Hdec. rewrite file_from_string_content. simpl.
  unfold _parse_line.
  rewrite line_parts_magic_string by done.
  unfold MAGIC_STRING_FORMAT. rewrite not_digit_led_format by done.
  rewrite Hwords.
  unfold getitem, call_string_decode, call_str2int. simpl.
  rewrite Hdec. simpl. by rewrite Hint.
Qed.

Lemma readlines_go_line (cur a : string) :
  all_chars (λ c, negb (Ascii.eqb c "010")) a = true →
  readlines_go cur (a +:+ String "010" "") = [cur +:+ a +:+ String "010" ""].
Proof.
  revert cur. induction a as [|c a IH]; intros cur Ha.
  - done.
  - simpl in Ha. apply andb_true_iff in Ha as [Hc Ha].
    rewrite app_cons. simpl readlines_go.
    apply negb_true_iff in Hc. rewrite Hc, IH by done.
    by rewrite app_assoc.
Qed.

Lemma not_space_not_newline (c : ascii) :
  not_space c = true → negb (Ascii.eqb c "010") = true.
Proof.
  unfold not_space. destruct (Ascii.eqb_spec c "010") as [->|]; [|done].
  by vm_compute.
Qed.

(** X23: end to end.  When the display name has no newline, the file
    [file_from_string] leaves behind reads as that one line; loading it
    records the decoded signature at the offset, provided the filter
    includes the description, and the scanner then reports the leftmost
    occurrence of the signature in a buffer when it lies below the bound. *)
Theorem file_from_string_then_parse_file (fs : filesystem)
    (raw_name signature_string : string) (offset : Z)
    (display_name decoded : string) (self : MagicParser) :
  (0 ≤ offset)%Z →
  signature_string ≠ "" →
  all_chars not_space signature_string = true →
  all_chars (λ c, negb (Ascii.eqb c "010")) display_name = true →
  str2int (format_d offset) = Some offset →
  string_decode signature_string = Some decoded →
  filter_include
    (Py.join " "
       (Py.split (Py.replace (display_name +:+ String "010" "") "\ " "\x20")))
    = true →
  fs !! raw_name
    = Some (readlines
              (content
                 (file_from_string raw_name signature_string offset
                    display_name).2)) →
  ∃ self',
    parse_file fs raw_name self = (Return (), self') ∧
    signatures self' = catalog_add offset decoded (signatures self) ∧
    signature_count self' = (signature_count self + 1)%Z ∧
    ∀ data end_ p,
      decoded ≠ "" → decoded ≠ WILDCARD →
      occurs_at decoded data p →
      (∀ p', occurs_at decoded data p' → p ≤ p')%Z →
      (p < end_)%Z →
      ∃ offsets, find_signature_candidates self' data end_ = Return offsets ∧
                 p ∈ offsets.
Proof.
  intros Hoff Hne Hsig Hname Hint Hdec Hfilter Hfile.
  pose proof (parse_magic_string signature_string offset display_name decoded
                Hoff Hne Hsig Hint Hdec) as Hparse.
  rewrite file_from_string_content in Hfile. simpl in Hfile.
  set (line := MAGIC_STRING_FORMAT offset signature_string display_name) in *.
  assert (readlines line = [line]) as Hlines.
  { unfold readlines, line, MAGIC_STRING_FORMAT.
    destruct (format_d_digits offset Hoff) as [_ Hdigits].
    assert (format_d offset +:+ String "009" "string"
              +:+ String "009" signature_string
              +:+ String "009" display_name +:+ String "010" ""
            = (format_d offset +:+ String "009" "string"
                 +:+ String "009" signature_string
                 +:+ String "009" display_name) +:+ String "010" "") as ->.
    { by rewrite !app_assoc. }
    rewrite readlines_go_line; [done|].
    rewrite !all_chars_app. simpl. rewrite ?all_chars_app. simpl.
    rewrite (all_chars_impl _ _ _ not_space_not_newline
               (all_chars_impl _ _ _ digit_not_space Hdigits)).
    rewrite (all_chars_impl _ _ _ not_space_not_newline Hsig).
    by rewrite Hname. }
  rewrite Hlines in Hfile.
  set (entry := Entry.Build offset "string" decoded
                  (Py.join " "
                     (Py.split
                        (Py.replace (display_name +:+ String "010" "")
                           "\ " "\x20")))
                  (Py.len decoded)) in *.
  pose proof (parse_file_single fs raw_name line entry self Hfile Hparse Hfilter)
    as Hload.
  set (self' := (build_signature_set
                   (fd_write (include_entry entry self) line)).2) in *.
  assert (signatures self' = catalog_add offset decoded (signatures self))
    as Hsigs.
  { unfold self'.
    change (signatures (build_signature_set ?s).2) with (signatures s).
    change (signatures (fd_write ?s _)) with (signatures s).
    by rewrite include_entry_catalog_add. }
  exists self'. split_and!; [done..|].
  intros data end_ p Hdne Hdnw Hocc Hleft Hend.
  pose proof (parse_file_up_to_date _ _ _ _ Hload) as Hcurrent.
  rewrite up_to_date_scan by done. eexists. split; [done|].
  apply elem_of_candidates. split; [done|].
  exists (compile_sig decoded). split.
  - assert (in_catalog (signatures self') offset decoded) as (conds & ? & ?)
      by (rewrite Hsigs; apply in_catalog_add; by right).
    apply elem_of_build_signature_set. by exists offset, conds, decoded.
  - rewrite compile_sig_Literal by done. by apply finditer_literal_complete.
Qed.

End file_from_string_facts.

(** * Loads that find nothing, loads that fail *)

Section load_edges.
Context `{Collaborators}.



Lemma parse_file_loop_error (lines : list string) (include : bool)
    (line_count : Z) (self : MagicParser) (e : exn) :
  (parse_file_loop lines include line_count self).2 = Some e →
  ∃ i line,
    lines !! i = Some line ∧ _parse_line line = Raise e ∧
    (parse_file_loop lines include line_count self).1.2
    = (line_count + Z.of_nat i + 1)%Z.
Proof.
  revert include line_count self.
  induction lines as [|l lines IH]; intros include line_count self; [done|].
  simpl. destruct (_parse_line l) as [r|e'] eqn:Hl.
  - intros Herr.
    assert (∀ include' self1,
              (parse_file_loop lines include' (line_count + 1) self1).2 = Some e →
              ∃ i line,
                (l :: lines) !! i = Some line ∧ _parse_line line = Raise e ∧
                (parse_file_loop lines include' (line_count + 1) self1).1.2
                = (line_count + Z.of_nat i + 1)%Z) as Hstep.
    { intros include' self1 Herr'.
      destruct (IH _ _ _ Herr') as (i & line & Hi & Hline & Hcount).
      exists (S i), line. split_and!; [done..|]. rewrite Hcount. lia. }
    destruct r as [entry|]; [destruct (filter_include _)|]; by apply Hstep.
  - simpl. intros [= ->]. exists 0, l. split_and!; [done..|lia].
Qed.

(** X25: whatever makes [parse_file] raise, the error names the file and
    the 1-based number of the line at which [_parse_line] raised (line 0 for
    a file that cannot be read), and the compiled set is left as it was: the
    scanner keeps answering from the matchers of the last load that
    returned, whatever the failed load put in the catalog. *)
Theorem failed_load_keeps_the_matchers (fs : filesystem) (file_name : string)
    (self self' : MagicParser) (e : exn) :
  parse_file fs file_name self = (Raise e, self') →
  signature_set self' = signature_set self ∧
  (∀ data end_,
     find_signature_candidates self' data end_
     = find_signature_candidates self data end_) ∧
  match fs !! file_name with
  | None => e = MagicFileError file_name 0 (IOError file_name) ∧ self' = self
  | Some lines =>
      ∃ i line cause,
        lines !! i = Some line ∧ _parse_line line = Raise cause ∧
        e = MagicFileError file_name (Z.of_nat i + 1) cause
  end.
Proof.
  unfold parse_file. destruct (fs !! file_name) as [lines|].
  - pose proof (parse_file_loop_frame lines false 0 self) as (Hset & _ & _).
    pose proof (parse_file_loop_error lines false 0 self) as Herr.
    destruct (parse_file_loop lines false 0 self) as [[self1 n] [cause|]];
      [|done].
    simpl in *. intros [= <- <-].
    destruct (Herr cause eq_refl) as (i & line & Hi & Hline & ->).
    split_and!; [done| |].
    + intros data end_. unfold find_signature_candidates. by rewrite Hset.
    + exists i, line, cause. split_and!; try done; f_equal; lia.
  - intros [= <- <-]. done.
Qed.

End load_edges.

(** * Instances of the statements above *)

Lemma catalog_only_grows_witness :
  let fs : filesystem := {[ "second.magic" := ["0 string CD second"] ]} in
  let self := Parser {[0%Z := ["AB"]]} None 1 (Tempfile "tmp" "" 0) [] in
  (∃ conds',
     signatures
       (@parse example_collaborators fs (FileList ["second.magic"]) self).2
       !! 0%Z = Some conds' ∧
     ["AB"] `prefix_of` conds') ∧
  (signature_count self
   ≤ signature_count
       (@parse example_collaborators fs (FileList ["second.magic"]) self).2)%Z.
Proof.
  intros fs self.
  apply (@catalog_only_grows example_collaborators fs ["second.magic"] self
           0 ["AB"]).
  reflexivity.
Defined.

Lemma catalog_stays_duplicate_free_witness :
  let fs : filesystem :=
    {[ "first.magic" := ["0 string AB first"; "0 string AB again"] ]} in
  map_Forall (λ _ conds, NoDup conds)
    (signatures
       (@parse example_collaborators fs (FileList ["first.magic"])
          (init "tmp")).2).
Proof.
  intros fs.
  apply (@catalog_stays_duplicate_free example_collaborators fs
           ["first.magic"] (init "tmp")).
  apply map_Forall_empty.
Defined.

Lemma catalog_holds_only_included_witness :
  let fs : filesystem :=
    {[ "first.magic" := ["0 string AB first"; "0 string CD Noise"] ]} in
  in_catalog (signatures (init "tmp")) 0 "AB" ∨
  ∃ fname lines line entry,
    fname ∈ ["first.magic"] ∧ fs !! fname = Some lines ∧ line ∈ lines ∧
    @_parse_line example_collaborators line = Return (Some entry) ∧
    @filter_include example_collaborators (Entry.description entry) = true ∧
    Entry.offset entry = 0%Z ∧ Entry.condition entry = "AB".
Proof.
  intros fs.
  apply (@catalog_holds_only_included example_collaborators fs
           ["first.magic"] (init "tmp") 0 "AB").
  exists ["AB"]. split; [reflexivity | by apply elem_of_cons; left].
Defined.

Lemma included_entry_is_found_witness :
  let fs : filesystem :=
    {[ "first.magic" := ["0 string AB first"; ">2 byte 1 more"] ]} in
  let self' :=
    (@parse_file example_collaborators fs "first.magic" (init "tmp")).2 in
  in_catalog (signatures self') 0 "AB" ∧
  ∃ compiled, signature_set self' = Some compiled ∧ compile_sig "AB" ∈ compiled.
Proof.
  intros fs self'.
  destruct (@included_entry_is_found example_collaborators fs "first.magic"
              ["0 string AB first"; ">2 byte 1 more"] "0 string AB first"
              (Entry.Build 0 "string" "AB" "first" 2) (init "tmp") self')
    as (Hin & Hset & _).
  - vm_compute. reflexivity.
  - reflexivity.
  - by apply elem_of_cons; left.
  - reflexivity.
  - reflexivity.
  - exact (conj Hin Hset).
Defined.

Lemma signature_count_counts_included_witness :
  let fs : filesystem :=
    {[ "first.magic" :=
         ["0 string AB first"; "0 string AB again"; "4 string CD Noise"] ]} in
  signature_count
    (@parse_file example_collaborators fs "first.magic" (init "tmp")).2
  = (signature_count (init "tmp")
     + Z.of_nat
         (length
            (omap (@included example_collaborators)
               ["0 string AB first"; "0 string AB again";
                "4 string CD Noise"])))%Z.
Proof.
  intros fs.
  apply (@signature_count_counts_included example_collaborators fs
           "first.magic"
           ["0 string AB first"; "0 string AB again"; "4 string CD Noise"]
           (init "tmp")).
  - vm_compute. reflexivity.
  - reflexivity.
Defined.


Lemma output_is_lines_of_the_file_witness :
  let fs : filesystem :=
    {[ "first.magic" :=
         ["# note"; "0 string AB first"; ">2 byte 1 more";
          "4 string CD Noise"] ]} in
  ∃ written,
    written `sublist_of`
      ["# note"; "0 string AB first"; ">2 byte 1 more"; "4 string CD Noise"] ∧
    fd (@parse_file example_collaborators fs "first.magic" (init "tmp")).2
      = write (fd (init "tmp")) (concat_lines written) ∧
    position_ok
      (fd (@parse_file example_collaborators fs "first.magic" (init "tmp")).2).
Proof.
  intros fs.
  apply (@output_is_lines_of_the_file example_collaborators fs "first.magic"
           ["# note"; "0 string AB first"; ">2 byte 1 more";
            "4 string CD Noise"] (init "tmp")).
  - reflexivity.
  - unfold position_ok. simpl. lia.
Defined.

Lemma nothing_included_nothing_kept_witness :
  let fs : filesystem :=
    {[ "noise.magic" := ["# note"; "0 string AB Noise"; ">2 byte 1 more"] ]} in
  let self := Parser {[0%Z := ["CD"]]} None 1 (Tempfile "tmp" "kept" 4) [] in
  signatures (@parse_file example_collaborators fs "noise.magic" self).2
    = signatures self ∧
  signature_count (@parse_file example_collaborators fs "noise.magic" self).2
    = signature_count self ∧
  fd (@parse_file example_collaborators fs "noise.magic" self).2 = fd self.
Proof.
  intros fs self.
  apply (@nothing_included_nothing_kept example_collaborators fs "noise.magic"
           ["# note"; "0 string AB Noise"; ">2 byte 1 more"] self).
  - reflexivity.
  - intros line Hline.
    repeat (apply elem_of_cons in Hline as [->|Hline]; [reflexivity|]).
    by apply elem_of_nil in Hline.
Defined.

Lemma include_all_copies_from_first_signature_witness :
  let fs : filesystem :=
    {[ "first.magic" :=
         ["# note"; ""] ++ "0 string AB first" :: [">2 byte 1 more"] ]} in
  fd (@parse_file include_all_collaborators fs "first.magic" (init "tmp")).2
  = write (fd (init "tmp"))
      (concat_lines ("0 string AB first" :: [">2 byte 1 more"])).
Proof.
  intros fs.
  apply (@include_all_copies_from_first_signature include_all_collaborators
           fs "first.magic" ["# note"; ""] [">2 byte 1 more"]
           "0 string AB first" (init "tmp")).
  - intros description. reflexivity.
  - reflexivity.
  - repeat constructor.
  - reflexivity.
  - unfold position_ok. simpl. lia.
  - vm_compute. reflexivity.
Defined.

Lemma parse_rewinds_the_output_witness :
  let fs : filesystem :=
    {[ "first.magic" := ["0 string ABCDEF first"];
       "second.magic" := ["0 string XY second"] ]} in
  let self1 :=
    (@parse example_collaborators fs (FileList ["first.magic"])
       (init "tmp")).2 in
  "tmp" = name (fd (init "tmp")) ∧
  position (fd self1) = 0 ∧
  ∀ file_name lines,
    fs !! file_name = Some lines →
    ∃ written,
      written `sublist_of` lines ∧
      content (fd (@parse_file example_collaborators fs file_name self1).2)
      = concat_lines written
          +:+ str_drop (String.length (concat_lines written))
                (content (fd self1)).
Proof.
  intros fs self1.
  apply (@parse_rewinds_the_output example_collaborators fs ["first.magic"]
           "tmp" (init "tmp") self1).
  vm_compute. reflexivity.
Defined.

Lemma file_from_string_parses_back_witness :
  let result :=
    file_from_string "raw.magic" "\x00FOOBAR\xFF" 0 "My custom signature" in
  result.1 = "raw.magic" ∧ name result.2 = "raw.magic" ∧
  position result.2 = 0 ∧
  @_parse_line example_collaborators (content result.2)
  = Return (Some (Entry.Build 0 "string"
                    (String "000" ("FOOBAR" +:+ String "255" ""))
                    (Py.join " "
                       (Py.split
                          (Py.replace
                             ("My custom signature" +:+ String "010" "")
                             "\ " "\x20")))
                    (Py.len (String "000" ("FOOBAR" +:+ String "255" ""))))).
Proof.
  apply (@file_from_string_parses_back example_collaborators "raw.magic"
           "\x00FOOBAR\xFF" 0 "My custom signature"
           (String "000" ("FOOBAR" +:+ String "255" "")));
    [lia | done | reflexivity | reflexivity | reflexivity].
Defined.

Lemma file_from_string_negative_offset_witness :
  @_parse_line example_collaborators
    (content (file_from_string "raw.magic" "FOOBAR" (-4) "Ignored").2)
  = Return None.
Proof.
  apply (@file_from_string_negative_offset example_collaborators "raw.magic"
           "FOOBAR" (-4) "Ignored").
  lia.
Defined.

Lemma file_from_string_empty_signature_witness :
  @_parse_line example_collaborators
    (content (file_from_string "raw.magic" "" 0 DEFAULT_DISPLAY_NAME).2)
  = Return (Some (Entry.Build 0 "string" "Raw"
                    (Py.join " " ["string"; "signature"]) (Py.len "Raw"))).
Proof.
  apply (@file_from_string_empty_signature example_collaborators "raw.magic"
           0 DEFAULT_DISPLAY_NAME "Raw" "Raw" ["string"; "signature"]);
    [lia | reflexivity | reflexivity | reflexivity].
Defined.

Lemma file_from_string_then_parse_file_witness :
  let fs : filesystem :=
    {[ "raw.magic" :=
         readlines
           (content
              (file_from_string "raw.magic" "\x00FOOBAR\xFF" 0
                 "My custom signature").2) ]} in
  ∃ self',
    @parse_file example_collaborators fs "raw.magic" (init "tmp")
      = (Return (), self') ∧
    signatures self'
      = catalog_add 0 (String "000" ("FOOBAR" +:+ String "255" ""))
          (signatures (init "tmp")) ∧
    signature_count self' = (signature_count (init "tmp") + 1)%Z.
Proof.
  intros fs.
  destruct (@file_from_string_then_parse_file example_collaborators fs
              "raw.magic" "\x00FOOBAR\xFF" 0 "My custom signature"
              (String "000" ("FOOBAR" +:+ String "255" "")) (init "tmp"))
    as (self' & Hload & Hsigs & Hcount & _);
    [lia | done | reflexivity | reflexivity | reflexivity | reflexivity
    | reflexivity | reflexivity |].
  exists self'. exact (conj Hload (conj Hsigs Hcount)).
Defined.

Lemma scanner_finds_literal_witness :
  let self :=
    Parser ∅ (Some {[Literal "AA"; Dot]}) 0 (Tempfile "tmp" "" 0) [] in
  ∃ offsets,
    find_signature_candidates self (String "010" "AAA") 9 = Return offsets ∧
    (∃ q, q ∈ offsets ∧ occurs_at "AA" (String "010" "AAA") q ∧
          (q ≤ 2 < q + Z.of_nat (String.length "AA"))%Z) ∧
    ((∀ p', occurs_at "AA" (String "010" "AAA") p' → 2 ≤ p')%Z → 2%Z ∈ offsets) ∧
    (String.length "AA" = 1 → 2%Z ∈ offsets).
Proof.
  intros self.
  apply (scanner_finds_literal self {[Literal "AA"; Dot]} "AA"
           (String "010" "AAA") 9 2).
  - reflexivity.
  - apply elem_of_union. left. by apply elem_of_singleton.
  - done.
  - split; [lia | reflexivity].
  - lia.
Defined.


Lemma failed_load_keeps_the_matchers_witness :
  let fs : filesystem :=
    {[ "bad.magic" := ["0 string CD second"; "0 byte zz broken"] ]} in
  let self :=
    Parser {[0%Z := ["AB"]]} (Some {[Literal "AB"]}) 1
      (Tempfile "tmp" "" 0) [] in
  let self' := (@parse_file example_collaborators fs "bad.magic" self).2 in
  signature_set self' = signature_set self ∧
  (∀ data end_,
     find_signature_candidates self' data end_
     = find_signature_candidates self data end_) ∧
  signatures self' !! 0%Z = Some ["AB"; "CD"].
Proof.
  intros fs self self'.
  destruct (@failed_load_keeps_the_matchers example_collaborators fs
              "bad.magic" self self'
              (MagicFileError "bad.magic" 2
                 (ConditionError "broken" "byte" "zz" (ValueError "zz"))))
    as (Hset & Hscan & _).
  - vm_compute. reflexivity.
  - split_and!; [exact Hset | exact Hscan | reflexivity].
Defined.
